(** * environment-weaver: configuration, feature flags, log filter, A/B simulator

  A shallow embedding of the decision logic of the repository:

  - [config/environment.ts]   : [configs], [getCurrentEnvironment], [getConfig]
  - [config/featureFlags.ts]  : [featureFlags], [isFeatureEnabled], [getAllFeatureFlags]
  - [components/LogViewer.tsx]: [logLevelPriority], [filteredLogs], [logCounts]
  - [components/ABTestingSimulator.tsx]:
      [simulateUser], [resetSimulation], [getWinningVariant]

  Conventions of the embedding.

  - A JavaScript [number] that holds a rate, a percentage or a random draw is
    a rational ([Q]); the integer counters ([users], [conversions],
    [totalUsers]) are [nat].  Comparisons are made on the exact values.
    Where the code stores a computed number and reads it again later (the
    rate of a result), the rounding of each operation to a double is written
    out with [JS.double].
  - [Math.random] and [console.warn] are the two effects of the code.  They
    are threaded through a [World]: an infinite supply of draws with a
    cursor, and the list of warnings printed so far.
  - A JavaScript exception is the outcome [Throw]. *)

From Stdlib Require Import List String Ascii Bool Arith ZArith QArith Qround Qpower
  Qreduction Lia Lqa.
From Stdlib Require PrimFloat FloatOps SpecFloat Uint63.
Import ListNotations.

Local Open Scope string_scope.
Local Open Scope list_scope.
Local Open Scope nat_scope.

(* ================================================================== *)
(** ** The JavaScript fragment used by the sources *)

Module JS.

(** [a < b] on numbers. *)
Definition ltb (a b : Q) : bool := negb (Qle_bool b a).

(** [a > b] on numbers. *)
Definition gtb (a b : Q) : bool := ltb b a.

(** [a >= b] on numbers. *)
Definition geb (a b : Q) : bool := Qle_bool b a.

Inductive Error : Type :=
| TypeError (msg : string).

Inductive outcome (A : Type) : Type :=
| Ok (a : A)
| Throw (e : Error).
Arguments Ok {A} a.
Arguments Throw {A} e.

(** The ambient effects: the random source and the console. *)
Record World : Type := mkWorld {
  rand : nat -> Q;        (* the n-th value [Math.random] hands out *)
  cursor : nat;           (* how many values were handed out *)
  console : list string;  (* [console.warn] lines, oldest first *)
}.

(** [Math.random] returns a value of [[0,1)]. *)
Definition fair (w : World) : Prop :=
  forall n, (0 <= rand w n /\ rand w n < 1)%Q.

Definition M (A : Type) : Type := World -> outcome A * World.

Definition ret {A} (a : A) : M A := fun w => (Ok a, w).

Definition throw {A} (e : Error) : M A := fun w => (Throw e, w).

Definition bind {A B} (m : M A) (k : A -> M B) : M B :=
  fun w =>
    match m w with
    | (Ok a, w') => k a w'
    | (Throw e, w') => (Throw e, w')
    end.

Definition next (w : World) : World :=
  mkWorld (rand w) (S (cursor w)) (console w).

Definition Math_random : M Q :=
  fun w => (Ok (rand w (cursor w)), next w).

Definition console_warn (line : string) : M unit :=
  fun w => (Ok tt, mkWorld (rand w) (cursor w) (console w ++ [line])).

(** [Math.floor]. *)
Definition Math_floor (x : Q) : Z := Qfloor x.

(** [xs[i]] for an integer-valued index: [undefined] ([None]) out of range. *)
Definition index {A} (xs : list A) (i : Z) : option A :=
  if (i <? 0)%Z then None else nth_error xs (Z.to_nat i).

(** [xs.reduce(f)] without an initial value. *)
Definition reduce {A} (f : A -> A -> A) (xs : list A) : outcome A :=
  match xs with
  | [] => Throw (TypeError "Reduce of empty array with no initial value")
  | x :: rest => Ok (fold_left f rest x)
  end.

(** A number as a counter or a length. *)
Definition of_nat (n : nat) : Q := inject_Z (Z.of_nat n).

Definition dquote : string := String "034"%char EmptyString.

(** *** Doubles

    A finite double is a rational, and an arithmetic operation on doubles
    gives the exact result rounded to the nearest double, ties to the even
    significand: 53 bits, with the last place no finer than [2^-1074].
    Overflow to [Infinity] (magnitudes from [2^1024] on) is not modelled. *)

Definition pow2 (e : Z) : Q := Qpower 2 e.

(** For [x > 0], the exponent [k] with [2^k <= x < 2^(k+1)]. *)
Definition ilog2 (x : Q) : Z :=
  let d := (Z.log2 (Qnum x) - Z.log2 (Zpos (Qden x)))%Z in
  if Qle_bool (pow2 d) x then d else (d - 1)%Z.

(** The nearest integer, ties to even. *)
Definition rne (q : Q) : Z :=
  let f := Qfloor q in
  let r := (q - inject_Z f)%Q in
  if ltb r (1 # 2) then f
  else if ltb (1 # 2) r then (f + 1)%Z
  else if Z.even f then f else (f + 1)%Z.

Definition double_pos (x : Q) : Q :=
  let e := Z.max (ilog2 x - 52) (-1074) in
  Qred (inject_Z (rne (x / pow2 e)) * pow2 e).

(** The double nearest to [x]. *)
Definition double (x : Q) : Q :=
  if ltb 0 x then double_pos x
  else if ltb x 0 then Qopp (double_pos (Qopp x))
  else 0%Q.

(** The value of a double of the machine, to compare [double] with. *)
Definition of_machine (f : PrimFloat.float) : option Q :=
  match FloatOps.Prim2SF f with
  | SpecFloat.S754_zero _ => Some 0%Q
  | SpecFloat.S754_finite sign m e =>
      Some (Qred ((if sign then -1 else 1) * inject_Z (Zpos m) * pow2 e))
  | _ => None
  end.

(** A counter as a double of the machine. *)
Definition machine_of_nat (n : nat) : PrimFloat.float :=
  PrimFloat.of_uint63 (Uint63.of_Z (Z.of_nat n)).

(** [(c / u) * 100] on the machine. *)
Definition machine_rate (c u : nat) : PrimFloat.float :=
  PrimFloat.mul (PrimFloat.div (machine_of_nat c) (machine_of_nat u))
    (machine_of_nat 100).

End JS.

Notation "x <- m ;; k" := (JS.bind m (fun x => k))
(at level 61, m at next level, right associativity).

(* ================================================================== *)
(** ** config/environment.ts *)

Module Environment.

Inductive Environment : Type := development | staging | production.

Inductive LogLevel : Type := debug | info | warn | error.

Record Features : Type := mkFeatures {
  analytics : bool;
  errorReporting : bool;
  experimentalFeatures : bool;
}.

Record EnvironmentConfig : Type := mkConfig {
  name : Environment;
  displayName : string;
  apiUrl : string;
  debugMode : bool;
  logLevel : LogLevel;
  features : Features;
}.

(** What the code reads of [import.meta.env]. *)
Record ImportMetaEnv : Type := mkMeta {
  VITE_APP_ENV : option string;
  MODE : string;
}.

Definition var_is (s : option string) (lit : string) : bool :=
  match s with
  | Some v => String.eqb v lit
  | None => false
  end.

Definition getCurrentEnvironment (env : ImportMetaEnv) : Environment :=
  if var_is (VITE_APP_ENV env) "staging" then staging
  else if var_is (VITE_APP_ENV env) "production" then production
  else if String.eqb (MODE env) "production" then production
  else development.

Definition configs (e : Environment) : EnvironmentConfig :=
  match e with
  | development =>
      mkConfig development "Development" "http://localhost:3000/api"
        true debug (mkFeatures false false true)
  | staging =>
      mkConfig staging "Staging" "https://staging-api.example.com"
        true info (mkFeatures true true true)
  | production =>
      mkConfig production "Production" "https://api.example.com"
        false error (mkFeatures true true false)
  end.

Definition getConfig (env : ImportMetaEnv) : EnvironmentConfig :=
  configs (getCurrentEnvironment env).

End Environment.

(** contexts/EnvironmentContext.tsx keeps its own copy of the table and
  indexes it with the environment chosen at run time. *)
Module EnvironmentContext.
Import Environment.

Definition configs (e : Environment) : EnvironmentConfig :=
  match e with
  | development =>
      mkConfig development "Development" "http://localhost:3000/api"
        true debug (mkFeatures false false true)
  | staging =>
      mkConfig staging "Staging" "https://staging-api.example.com"
        true info (mkFeatures true true true)
  | production =>
      mkConfig production "Production" "https://api.example.com"
        false error (mkFeatures true true false)
  end.

(** [useEnvironment().config] for the current environment. *)
Definition config (currentEnvironment : Environment) : EnvironmentConfig :=
  configs currentEnvironment.

End EnvironmentContext.

(* ================================================================== *)
(** ** components/LogViewer.tsx *)

Module LogViewer.
Import Environment.

Record LogEntry : Type := mkLog {
  level : LogLevel;
  message : string;
  source : string;
}.

Definition logLevelPriority (l : LogLevel) : nat :=
  match l with
  | debug => 0
  | info => 1
  | warn => 2
  | error => 3
  end.

Definition LogLevel_eqb (a b : LogLevel) : bool :=
  match a, b with
  | debug, debug | info, info | warn, warn | error, error => true
  | _, _ => false
  end.

(** The user's filter: a level, or ['all']. *)
Inductive Filter : Type := all | only (l : LogLevel).

Definition passesEnvFilter (minLogLevel : LogLevel) (log : LogEntry) : bool :=
  logLevelPriority minLogLevel <=? logLevelPriority (level log).

Definition passesUserFilter (filter : Filter) (log : LogEntry) : bool :=
  match filter with
  | all => true
  | only l => LogLevel_eqb (level log) l
  end.

Definition filteredLogs (minLogLevel : LogLevel) (filter : Filter)
    (logs : list LogEntry) : list LogEntry :=
  List.filter
    (fun log => passesEnvFilter minLogLevel log && passesUserFilter filter log)
    logs.

(** [logCounts]: the object [acc], as a total map with [undefined] read as 0
    (the code reads it as [acc[level] || 0]). *)
Definition logCounts (minLogLevel : LogLevel) (logs : list LogEntry)
    : LogLevel -> nat :=
  fold_left
    (fun acc log =>
       if logLevelPriority minLogLevel <=? logLevelPriority (level log)
       then fun l => if LogLevel_eqb l (level log) then acc l + 1 else acc l
       else acc)
    logs (fun _ => 0).

(** The viewer is fed [config.logLevel] of the current environment. *)
Definition visibleLogs (env : Environment) (filter : Filter)
    (logs : list LogEntry) : list LogEntry :=
  filteredLogs (logLevel (EnvironmentContext.config env)) filter logs.

End LogViewer.

(* ================================================================== *)
(** ** config/featureFlags.ts *)

Module FeatureFlags.
Import Environment.

(** [Record<Environment, boolean>]. *)
Record EnabledMap : Type := mkEnabled {
  in_development : bool;
  in_staging : bool;
  in_production : bool;
}.

(** [m[env]]. *)
Definition at_env (m : EnabledMap) (env : Environment) : bool :=
  match env with
  | development => in_development m
  | staging => in_staging m
  | production => in_production m
  end.

(** The fields the evaluator reads, and the display name; [description] and
    [metadata] are text for the panel and are left out. *)
Record FeatureFlag : Type := mkFlag {
  id : string;
  name : string;
  enabled : EnabledMap;
  rolloutPercentage : option Q;   (* [None] is [undefined] *)
}.

Definition featureFlags : list FeatureFlag :=
  [ mkFlag "dark_mode_v2" "Dark Mode V2" (mkEnabled true true false) (Some 100%Q);
    mkFlag "new_dashboard" "New Dashboard Layout" (mkEnabled true true true) (Some 50%Q);
    mkFlag "ai_suggestions" "AI-Powered Suggestions" (mkEnabled true false false) None;
    mkFlag "beta_api_v2" "API V2 Beta" (mkEnabled true true false) (Some 25%Q);
    mkFlag "export_pdf" "PDF Export" (mkEnabled true true true) (Some 100%Q) ].

(** [featureFlags.find(f => f.id === flagId)]. *)
Definition lookup (registry : list FeatureFlag) (flagId : string)
    : option FeatureFlag :=
  List.find (fun f => String.eqb (id f) flagId) registry.

Definition notFound (flagId : string) : string :=
  String.append "Feature flag "
    (String.append JS.dquote
       (String.append flagId (String.append JS.dquote " non trovato!"))).

(** The body of [isFeatureEnabled], with the two globals it reads (the
    registry and the current environment) as arguments. *)
Definition isFeatureEnabledIn (registry : list FeatureFlag)
    (currentEnv : Environment) (flagId : string) : JS.M bool :=
  match lookup registry flagId with
  | None =>
      _ <- JS.console_warn (notFound flagId) ;;
      JS.ret false
  | Some flag =>
      let isEnabledForEnv := at_env (enabled flag) currentEnv in
      if negb isEnabledForEnv then JS.ret false
      else
        match rolloutPercentage flag with
        | Some p =>
            if JS.ltb p 100
            then u <- JS.Math_random ;; JS.ret (JS.ltb (u * 100) p)
            else JS.ret true
        | None => JS.ret true
        end
  end.

Definition isFeatureEnabled (meta : ImportMetaEnv) (flagId : string)
    : JS.M bool :=
  isFeatureEnabledIn featureFlags (getCurrentEnvironment meta) flagId.

(** [getAllFeatureFlags]: each flag with its [currentlyEnabled]. *)
Definition getAllFeatureFlags (meta : ImportMetaEnv)
    : list (FeatureFlag * bool) :=
  let currentEnv := getCurrentEnvironment meta in
  List.map (fun flag => (flag, at_env (enabled flag) currentEnv)) featureFlags.

End FeatureFlags.

(* ================================================================== *)
(** ** components/ABTestingSimulator.tsx *)

Module ABTesting.

(** [description] and [color] are display text and are left out. *)
Record Variant : Type := mkVariant {
  id : string;
  name : string;
  conversionRate : Q;   (* simulated base conversion rate *)
}.

Record ExperimentResult : Type := mkResult {
  variantId : string;
  users : nat;
  conversions : nat;
  rate : Q;             (* the field [conversionRate] of a result *)
}.

Inductive Status : Type := draft | running | paused | completed.

Record Experiment : Type := mkExperiment {
  exp_id : string;
  exp_name : string;
  rolloutPercentage : Q;
  variants : list Variant;
  status : Status;
}.

Definition checkoutButton : Experiment :=
  mkExperiment "checkout-button" "Checkout Button Color" 50%Q
    [ mkVariant "control" "Control (Verde)" 3.2%Q;
      mkVariant "variant-a" "Variant A (Blu)" 3.8%Q ]
    running.

Definition pricingDisplay : Experiment :=
  mkExperiment "pricing-display" "Pricing Page Layout" 25%Q
    [ mkVariant "control" "Cards Layout" 2.1%Q;
      mkVariant "variant-a" "Table Layout" 2.8%Q;
      mkVariant "variant-b" "Horizontal Cards" 2.4%Q ]
    running.

Definition experiments : list Experiment := [checkoutButton; pricingDisplay].

(** The component's state hooks. *)
Record State : Type := mkState {
  selectedExperiment : Experiment;
  isSimulating : bool;
  totalUsers : nat;
  results : list ExperimentResult;
  rollout : Q;
}.

(** The list both the initialising effect and [resetSimulation] store. *)
Definition zeroResults (vs : list Variant) : list ExperimentResult :=
  List.map (fun v => mkResult (id v) 0 0 0%Q) vs.

(** The [useState] initial values; [checkoutButton] is [experiments[0]]. *)
Definition initialState : State :=
  mkState checkoutButton false 0 [] (rolloutPercentage checkoutButton).

(** The effect on [[selectedExperiment]]. *)
Definition initializeResults (s : State) : State :=
  mkState (selectedExperiment s) (isSimulating s) 0
    (zeroResults (variants (selectedExperiment s)))
    (rolloutPercentage (selectedExperiment s)).

(** The state after the first render and its effects. *)
Definition mounted : State := initializeResults initialState.

(** The update [simulateUser] queues on [results].  The counters are integers
    and exact; the rate is a quotient and a product of doubles. *)
Definition recordUser (variant : Variant) (converted : bool)
    (prev : list ExperimentResult) : list ExperimentResult :=
  List.map
    (fun r =>
       if String.eqb (variantId r) (id variant) then
         let newUsers := users r + 1 in
         let newConversions := conversions r + (if converted then 1 else 0) in
         mkResult (variantId r) newUsers newConversions
           (JS.double (JS.double (JS.of_nat newConversions / JS.of_nat newUsers) * 100))%Q
       else r)
    prev.

(** [variant.conversionRate + (Math.random() - 0.5) * 0.5]. *)
Definition adjustedRate (variant : Variant) (draw : Q) : Q :=
  (conversionRate variant + (draw - 0.5) * 0.5)%Q.

Definition simulateUser (s : State) : JS.M State :=
  u <- JS.Math_random ;;
  let isInExperiment := JS.ltb (u * 100) (rollout s) in
  if negb isInExperiment then JS.ret s
  else
    i <- JS.Math_random ;;
    let vs := variants (selectedExperiment s) in
    let variantIndex := JS.Math_floor (i * JS.of_nat (List.length vs)) in
    match JS.index vs variantIndex with
    | None =>
        JS.throw (JS.TypeError "Cannot read properties of undefined")
    | Some variant =>
        j <- JS.Math_random ;;
        let adjusted := adjustedRate variant j in
        c <- JS.Math_random ;;
        let converted := JS.ltb (c * 100) adjusted in
        JS.ret (mkState (selectedExperiment s) (isSimulating s)
                  (totalUsers s + 1)
                  (recordUser variant converted (results s))
                  (rollout s))
    end.

(** The body of the interval callback, for a batch of [n] (the code has 5). *)
Fixpoint simulateUsers (n : nat) (s : State) : JS.M State :=
  match n with
  | O => JS.ret s
  | S k => s' <- simulateUser s ;; simulateUsers k s'
  end.

Definition resetSimulation (s : State) : State :=
  mkState (selectedExperiment s) false 0
    (zeroResults (variants (selectedExperiment s)))
    (rollout s).

(** The slider: [setRollout(Number(e.target.value))]. *)
Definition setRollout (p : Q) (s : State) : State :=
  mkState (selectedExperiment s) (isSimulating s) (totalUsers s) (results s) p.

(** The start button: [setIsSimulating(!isSimulating)]. *)
Definition toggleSimulation (s : State) : State :=
  mkState (selectedExperiment s) (negb (isSimulating s)) (totalUsers s)
    (results s) (rollout s).

(** The click on an experiment button:
    [setSelectedExperiment(exp); setIsSimulating(false)].  The two objects of
    [experiments] differ in their [id], which stands for their identity here.
    The component is rendered in this state, with the results and the total it
    had, before the effect on [[selectedExperiment]] runs. *)
Definition clickExperiment (exp : Experiment) (s : State) : State :=
  if String.eqb (exp_id exp) (exp_id (selectedExperiment s))
  then mkState (selectedExperiment s) false (totalUsers s) (results s) (rollout s)
  else mkState exp false (totalUsers s) (results s) (rollout s).

(** The click together with the effect it triggers: the effect on
    [[selectedExperiment]] runs only when the object changes.  This is the
    state in which the next event finds the component; the render in between
    is [clickExperiment]. *)
Definition selectExperiment (exp : Experiment) (s : State) : State :=
  if String.eqb (exp_id exp) (exp_id (selectedExperiment s))
  then mkState (selectedExperiment s) false (totalUsers s) (results s) (rollout s)
  else initializeResults
         (mkState exp false (totalUsers s) (results s) (rollout s)).

(** The callback of the [reduce] in [getWinningVariant]:
    [(a, b) => a.conversionRate > b.conversionRate ? a : b]. *)
Definition higherRate (a b : ExperimentResult) : ExperimentResult :=
  if JS.gtb (rate a) (rate b) then a else b.

Definition getWinningVariant (totalUsers : nat) (results : list ExperimentResult)
    : JS.outcome (option ExperimentResult) :=
  if totalUsers <? 100 then JS.Ok None
  else
    match JS.reduce higherRate results with
    | JS.Ok r => JS.Ok (Some r)
    | JS.Throw e => JS.Throw e
    end.

(** [winner], as the component computes it on every render. *)
Definition winner (s : State) : JS.outcome (option ExperimentResult) :=
  getWinningVariant (totalUsers s) (results s).

End ABTesting.

(* ================================================================== *)
(** ** Runs of the simulator, and the notions the properties are stated with *)

Module Runs.
Import ABTesting.

(** What can happen to the component between two renders. *)
Inductive reachable : State -> Prop :=
| reach_mounted : reachable mounted
| reach_select exp s :
    In exp experiments -> reachable s -> reachable (selectExperiment exp s)
| reach_rollout p s :
    reachable s -> reachable (setRollout p s)
| reach_toggle s :
    reachable s -> reachable (toggleSimulation s)
| reach_reset s :
    reachable s -> reachable (resetSimulation s)
| reach_simulate s w s' w' :
    reachable s -> simulateUser s w = (JS.Ok s', w') -> reachable s'.

(** The states in which the component is rendered: before the first effect,
    between two events, and between a click on an experiment button and the
    effect that resets the results. *)
Inductive rendered : State -> Prop :=
| render_first : rendered initialState
| render_settled s : reachable s -> rendered s
| render_clicked exp s :
    In exp experiments -> reachable s -> rendered (clickExperiment exp s).

(** The world after [n] draws. *)
Definition skip (n : nat) (w : JS.World) : JS.World :=
  JS.mkWorld (JS.rand w) (n + JS.cursor w) (JS.console w).

(** [100 * conversions / users] as an exact number, and 0 when there are no
    users. *)
Definition observedRate (r : ExperimentResult) : Q :=
  if users r =? 0 then 0%Q
  else (100 * JS.of_nat (conversions r) / JS.of_nat (users r))%Q.

(** The rate the code stores for a result with these counters:
    [(conversions / users) * 100] in doubles, and 0 without users. *)
Definition storedRate (conversions users : nat) : Q :=
  if users =? 0 then 0%Q
  else JS.double (JS.double (JS.of_nat conversions / JS.of_nat users) * 100).

Definition countersConsistent (s : State) : Prop :=
  totalUsers s = list_sum (List.map users (results s)) /\
  Forall (fun r => conversions r <= users r /\
                   (rate r == storedRate (conversions r) (users r))%Q)
         (results s).

(** The results follow the variants of the selected experiment, one each. *)
Definition resultsFollowVariants (s : State) : Prop :=
  List.map variantId (results s) = List.map id (variants (selectedExperiment s)) /\
  NoDup (List.map id (variants (selectedExperiment s))).

Definition zeroed (r : ExperimentResult) : Prop :=
  users r = 0 /\ conversions r = 0 /\ rate r = 0%Q.

(** [r] is at a position of [rs] where the rate is greatest, and it is the
    last such position. *)
Definition lastGreatest (rs : list ExperimentResult) (r : ExperimentResult) : Prop :=
  exists i,
    nth_error rs i = Some r /\
    (forall j r', nth_error rs j = Some r' -> (rate r' <= rate r)%Q) /\
    (forall j r', i < j -> nth_error rs j = Some r' -> (rate r' < rate r)%Q).

(** The same with the first such position. *)
Definition firstGreatest (rs : list ExperimentResult) (r : ExperimentResult) : Prop :=
  exists i,
    nth_error rs i = Some r /\
    (forall j r', nth_error rs j = Some r' -> (rate r' <= rate r)%Q) /\
    (forall j r', j < i -> nth_error rs j = Some r' -> (rate r' < rate r)%Q).

(** [clamp x lo hi]: [x] brought into [[lo, hi]]. *)
Definition clamp (x lo hi : Q) : Q :=
  if JS.ltb x lo then lo else if JS.ltb hi x then hi else x.

(** [(draw - 0.5) * 0.5], the noise added to the base rate. *)
Definition jitter (draw : Q) : Q := ((draw - 0.5) * 0.5)%Q.

End Runs.

(* ================================================================== *)
(** ** Sample inputs *)

Module Samples.
Import Environment.

(** A random source that always hands out [x]. *)
Definition constantWorld (x : Q) : JS.World := JS.mkWorld (fun _ => x) 0 [].

Definition sampleStream : list LogViewer.LogEntry :=
  [ LogViewer.mkLog debug "Fetching user data..." "API";
    LogViewer.mkLog info "User session started" "Auth";
    LogViewer.mkLog warn "Memory usage above 80%" "System";
    LogViewer.mkLog error "Database connection timeout" "Database" ].

Definition darkMode : FeatureFlags.FeatureFlag :=
  FeatureFlags.mkFlag "dark_mode_v2" "Dark Mode V2"
    (FeatureFlags.mkEnabled true true false) (Some 100%Q).

Definition newDashboard : FeatureFlags.FeatureFlag :=
  FeatureFlags.mkFlag "new_dashboard" "New Dashboard Layout"
    (FeatureFlags.mkEnabled true true true) (Some 50%Q).

(** Two results with the same rate, after 100 users. *)
Definition tiedControl : ABTesting.ExperimentResult :=
  ABTesting.mkResult "control" 50 1 2%Q.

Definition tiedVariantA : ABTesting.ExperimentResult :=
  ABTesting.mkResult "variant-a" 50 1 2%Q.

(** Draws that let a user in, pick the second variant and convert. *)
Definition scriptedWorld : JS.World :=
  JS.mkWorld
    (fun n => match n with
              | 0 => 0.1%Q
              | 1 => 0.7%Q
              | 2 => 0.5%Q
              | _ => 0.01%Q
              end)
    0 [].

Definition afterOneUser : ABTesting.State :=
  ABTesting.mkState ABTesting.checkoutButton false 1
    [ ABTesting.mkResult "control" 0 0 0%Q;
      ABTesting.mkResult "variant-a" 1 1 100%Q ]
    50%Q.

(** Draws for three users of the first variant, of whom the first converts. *)
Definition oneInThreeWorld : JS.World :=
  JS.mkWorld (fun n => if n =? 3 then 0.01%Q else 0.3%Q) 0 [].

(** One conversion in three users; the rate prints as [33.33333333333333]. *)
Definition oneInThree : ABTesting.ExperimentResult :=
  ABTesting.mkResult "control" 3 1 (2345624805922133 # 70368744177664)%Q.

Definition afterThreeUsers : ABTesting.State :=
  ABTesting.mkState ABTesting.checkoutButton false 3
    [ oneInThree; ABTesting.mkResult "variant-a" 0 0 0%Q ]
    50%Q.

(** Draws that enrol every user in the third variant and convert. *)
Definition thirdVariantWorld : JS.World :=
  JS.mkWorld
    (fun n => match n mod 4 with
              | 0 => 0.1%Q
              | 1 => 0.7%Q
              | 2 => 0.5%Q
              | _ => 0.01%Q
              end)
    0 [].

Definition thirdVariantWins : ABTesting.ExperimentResult :=
  ABTesting.mkResult "variant-b" 100 100 100%Q.

(** The second experiment after 100 such users. *)
Definition afterHundredUsers : ABTesting.State :=
  ABTesting.mkState ABTesting.pricingDisplay false 100
    [ ABTesting.mkResult "control" 0 0 0%Q;
      ABTesting.mkResult "variant-a" 0 0 0%Q;
      thirdVariantWins ]
    25%Q.

(** The render after a click on the first experiment, before the effect. *)
Definition betweenClickAndEffect : ABTesting.State :=
  ABTesting.mkState ABTesting.checkoutButton false 100
    [ ABTesting.mkResult "control" 0 0 0%Q;
      ABTesting.mkResult "variant-a" 0 0 0%Q;
      thirdVariantWins ]
    25%Q.

(** A variant that never converts, and one that always does. *)
Definition hopeless : ABTesting.Variant :=
  ABTesting.mkVariant "control" "Never converts" 0%Q.

Definition certain : ABTesting.Variant :=
  ABTesting.mkVariant "variant-a" "Always converts" 100%Q.

End Samples.

(* ================================================================== *)
(** ** More of the components *)

(** Array and string slices with the bounds the sources use. *)
Module JSList.

(** [xs.slice(-k)]: the last [k] elements, all of [xs] when it is shorter. *)
Definition slice_last {A} (k : nat) (xs : list A) : list A :=
  skipn (List.length xs - k) xs.

(** [xs.slice(0, k)]. *)
Definition slice_first {A} (k : nat) (xs : list A) : list A := firstn k xs.

(** [Math.max(...ns, 1)] on counters. *)
Definition max_with_one (ns : list nat) : nat := list_max (ns ++ [1]).

End JSList.

(** The rest of components/LogViewer.tsx. *)
Module LogViewerControls.
Import Environment LogViewer.

(** The updater of the streaming interval:
    [prev => [...prev.slice(-50), newLog]]. *)
Definition appendLog (newLog : LogEntry) (prev : list LogEntry) : list LogEntry :=
  JSList.slice_last 50 prev ++ [newLog].

(** The buffer after the entries [news] arrived in this order. *)
Definition stream (news : list LogEntry) (start : list LogEntry) : list LogEntry :=
  fold_left (fun buffer log => appendLog log buffer) news start.

(** A level tab is disabled when [logLevelPriority[level] < minPriority]. *)
Definition isDisabled (minLogLevel level : LogLevel) : bool :=
  logLevelPriority level <? logLevelPriority minLogLevel.

(** A click on a level tab: [!isDisabled && setFilter(level)]. *)
Definition clickLevel (minLogLevel level : LogLevel) (filter : Filter) : Filter :=
  if negb (isDisabled minLogLevel level) then only level else filter.

(** [getLogLevelLabel]: the level and the description shown in the header. *)
Definition getLogLevelLabel (currentEnvironment : Environment) : LogLevel * string :=
  match currentEnvironment with
  | development => (debug, "Tutti i log visibili")
  | staging => (info, "Debug nascosti")
  | production => (error, "Solo errori critici")
  end.

(** The status bar: [logs.length - filteredLogs.length]. *)
Definition hiddenCount (minLogLevel : LogLevel) (filter : Filter)
    (logs : list LogEntry) : Z :=
  (Z.of_nat (List.length logs)
   - Z.of_nat (List.length (filteredLogs minLogLevel filter logs)))%Z.

End LogViewerControls.

(** The read-outs of components/ABTestingSimulator.tsx. *)
Module ABStats.
Import ABTesting.

(** [results.reduce((a, b) => a + b.conversions, 0)]. *)
Definition totalConversions (results : list ExperimentResult) : nat :=
  fold_left (fun a b => a + conversions b) results 0.

(** The average rate before it is printed with one decimal; the literal
    ['0.0'] of the other branch is the number 0. *)
Definition averageRate (s : State) : Q :=
  if 0 <? totalUsers s
  then ((JS.of_nat (totalConversions (results s)) / JS.of_nat (totalUsers s)) * 100)%Q
  else 0%Q.

(** [selectedExperiment.variants.find(v => v.id === result.variantId)]. *)
Definition rowVariant (s : State) (result : ExperimentResult) : option Variant :=
  List.find (fun v => String.eqb (id v) (variantId result))
    (variants (selectedExperiment s)).


(** [Math.max(...results.map(r => r.users), 1)]. *)
Definition maxUsers (results : list ExperimentResult) : nat :=
  JSList.max_with_one (List.map users results).

(** The width of a row's bar, in percent: [(result.users / maxUsers) * 100]. *)
Definition barWidth (results : list ExperimentResult) (result : ExperimentResult) : Q :=
  ((JS.of_nat (users result) / JS.of_nat (maxUsers results)) * 100)%Q.

(** The note under the rows: [totalUsers > 0 && totalUsers < 100]. *)
Definition insufficientSample (s : State) : bool :=
  (0 <? totalUsers s) && (totalUsers s <? 100).

End ABStats.

(** contexts/EnvironmentContext.tsx with the buttons of
    components/EnvironmentSimulator.tsx. *)
Module EnvironmentProvider.
Import Environment.

Definition Environment_eqb (a b : Environment) : bool :=
  match a, b with
  | development, development | staging, staging | production, production => true
  | _, _ => false
  end.

(** The provider's state, the flag of the simulator panel, and the timers the
    panel has started (all with the same delay, so they fire in the order they
    were started); each timer holds the environment it will set. *)
Record State : Type := mkState {
  currentEnvironment : Environment;
  isSimulated : bool;
  isTransitioning : bool;
  timers : list Environment;
}.

Definition initialState : State := mkState development false false [].

(** [setEnvironment] of the provider. *)
Definition setEnvironment (env : Environment) (s : State) : State :=
  mkState env true (isTransitioning s) (timers s).

(** [config] of the context value. *)
Definition config (s : State) : EnvironmentConfig :=
  EnvironmentContext.configs (currentEnvironment s).

(** [handleEnvironmentChange], up to the start of its timer. *)
Definition handleEnvironmentChange (env : Environment) (s : State) : State :=
  if Environment_eqb env (currentEnvironment s) then s
  else mkState (currentEnvironment s) (isSimulated s) true (timers s ++ [env]).

(** The oldest timer fires: [setEnvironment(env); setIsTransitioning(false)]. *)
Definition fire (s : State) : State :=
  match timers s with
  | [] => s
  | env :: rest => mkState env true false rest
  end.

Inductive reachable : State -> Prop :=
| reach_initial : reachable initialState
| reach_click env s : reachable s -> reachable (handleEnvironmentChange env s)
| reach_fire s : reachable s -> reachable (fire s).

End EnvironmentProvider.

(** components/CICDDiagram.tsx: the animation of the pipeline. *)
Module CICD.

(** The ids of [stages]. *)
Definition stages : list string :=
  ["commit"; "build"; "test"; "package"; "deploy"; "monitor"].

Record State : Type := mkState {
  activeStage : nat;
  isRunning : bool;
  completedStages : list nat;
}.

Definition initialState : State := mkState 0 true [].

(** The callback of the interval. *)
Definition tick (s : State) : State :=
  let prev := activeStage s in
  let next := (prev + 1) mod List.length stages in
  mkState next (isRunning s)
    (if next =? 0 then [] else completedStages s ++ [prev]).

(** The pause button. *)
Definition toggleRunning (s : State) : State :=
  mkState (activeStage s) (negb (isRunning s)) (completedStages s).

(** The interval exists only while [isRunning]. *)
Inductive reachable : State -> Prop :=
| reach_initial : reachable initialState
| reach_tick s : reachable s -> isRunning s = true -> reachable (tick s)
| reach_toggle s : reachable s -> reachable (toggleRunning s).

(** [completedStages.includes(index)]. *)
Definition isCompleted (s : State) (index : nat) : bool :=
  existsb (Nat.eqb index) (completedStages s).

(** The width of the progress bar, in percent. *)
Definition progress (s : State) : Q :=
  (((JS.of_nat (List.length (completedStages s))
     + (if activeStage s =? List.length (completedStages s) then 0.5 else 0))
    / JS.of_nat (List.length stages)) * 100)%Q.

End CICD.

(** components/SecretsManager.tsx. *)
Module SecretsManager.

(** A string as its sequence of UTF-16 code units. *)
Definition codeUnit : Type := N.

(** The bullet of the mask, U+2022. *)
Definition bullet : codeUnit := 8226%N.

Definition bullets : list codeUnit := repeat bullet 8.

Definition maskValue (value : list codeUnit) : list codeUnit :=
  if List.length value <=? 8 then bullets
  else JSList.slice_first 4 value ++ bullets ++ JSList.slice_last 4 value.

(** A [Set<string>], as the list of its elements in insertion order. *)
Definition has (set : list string) (key : string) : bool :=
  existsb (String.eqb key) set.

Definition delete (set : list string) (key : string) : list string :=
  List.filter (fun k => negb (String.eqb key k)) set.

Definition add (set : list string) (key : string) : list string :=
  if has set key then set else set ++ [key].

(** The updater of [toggleReveal]. *)
Definition toggleReveal (key : string) (prev : list string) : list string :=
  if has prev key then delete prev key else add prev key.

(** What a row shows for a value. *)
Definition display (revealedSecrets : list string) (key : string)
    (value : list codeUnit) : list codeUnit :=
  if has revealedSecrets key then value else maskValue value.

(** [getDaysUntilRotation]; [!rotationDays] holds for [undefined] and for 0. *)
Definition getDaysUntilRotation (rotationDays : option nat) : JS.M (option Z) :=
  match rotationDays with
  | None => JS.ret None
  | Some 0 => JS.ret None
  | Some days =>
      r <- JS.Math_random ;;
      JS.ret (Some (JS.Math_floor (r * JS.of_nat days)))
  end.

(** [daysLeft !== null && daysLeft < 30]. *)
Definition needsRotation (daysLeft : option Z) : bool :=
  match daysLeft with
  | Some d => (d <? 30)%Z
  | None => false
  end.

End SecretsManager.

(* ================================================================== *)
(** * Properties *)

(** ** The configuration table *)

Section ConfigTable.
Import Environment.

Lemma getCurrentEnvironment_onto (e : Environment) :
  exists meta, getCurrentEnvironment meta = e.
Proof.
  destruct e.
  - exists (mkMeta None "development"). reflexivity.
  - exists (mkMeta (Some "staging") "development"). reflexivity.
  - exists (mkMeta None "production"). reflexivity.
Qed.

Lemma configs_copies_agree (e : Environment) :
  EnvironmentContext.configs e = configs e.
Proof. destruct e; reflexivity. Qed.

(** C8.  The resolver is a total lookup in the fixed table: [getConfig]
    answers for every build environment with the entry of the environment it
    detects, the entry of [e] is the one named [e], and the entries carry the
    values of the table: production logs from [error] and has no
    experimental features, development logs from [debug] and has no
    analytics, staging logs from [info], and the three API URLs are the
    table's. *)
Theorem configs_fixed_table :
  (forall meta, getConfig meta = configs (getCurrentEnvironment meta)) /\
  (forall e, name (configs e) = e /\ EnvironmentContext.config e = configs e) /\
  logLevel (configs production) = error /\
  experimentalFeatures (features (configs production)) = false /\
  logLevel (configs development) = debug /\
  analytics (features (configs development)) = false /\
  logLevel (configs staging) = info /\
  features (configs development) = mkFeatures false false true /\
  features (configs staging) = mkFeatures true true true /\
  features (configs production) = mkFeatures true true false /\
  apiUrl (configs development) = "http://localhost:3000/api" /\
  apiUrl (configs staging) = "https://staging-api.example.com" /\
  apiUrl (configs production) = "https://api.example.com".
Proof.
  split; [reflexivity|].
  split.
  - intros e. split; [now destruct e | apply configs_copies_agree].
  - repeat split.
Qed.

End ConfigTable.

(** ** The log filter *)

Section LogFilter.
Import Environment LogViewer.

Lemma passesEnvFilter_spec (m : LogLevel) (log : LogEntry) :
  passesEnvFilter m log = true <->
  logLevelPriority (level log) >= logLevelPriority m.
Proof. unfold passesEnvFilter. rewrite Nat.leb_le. lia. Qed.

Lemma passesEnvFilter_mono (m1 m2 : LogLevel) (log : LogEntry) :
  logLevelPriority m1 <= logLevelPriority m2 ->
  passesEnvFilter m2 log = true -> passesEnvFilter m1 log = true.
Proof. rewrite !passesEnvFilter_spec. lia. Qed.

Lemma filter_absorb {A} (p q : A -> bool) (l : list A) :
  (forall x, q x = true -> p x = true) ->
  List.filter q (List.filter p l) = List.filter q l.
Proof.
  intros Hqp. induction l as [|x l IH]; simpl; [reflexivity|].
  destruct (q x) eqn:Eq.
  - rewrite (Hqp x Eq). simpl. rewrite Eq. now f_equal.
  - destruct (p x); simpl; [rewrite Eq|]; exact IH.
Qed.

(** Filtering twice with a weaker inner threshold is filtering once. *)
Lemma filteredLogs_refilter (m1 m2 : LogLevel) (f : Filter) (logs : list LogEntry) :
  logLevelPriority m1 <= logLevelPriority m2 ->
  filteredLogs m2 f (filteredLogs m1 f logs) = filteredLogs m2 f logs.
Proof.
  intros Hle. unfold filteredLogs. apply filter_absorb.
  intros log Hp. apply andb_true_iff in Hp as [Hp Hu].
  now rewrite (passesEnvFilter_mono m1 m2 log Hle Hp), Hu.
Qed.

Lemma filter_length_le {A} (p : A -> bool) (l : list A) :
  List.length (List.filter p l) <= List.length l.
Proof.
  induction l as [|x l IH]; simpl; [lia|].
  destruct (p x); simpl; lia.
Qed.

Lemma filteredLogs_count_mono (m1 m2 : LogLevel) (f : Filter) (logs : list LogEntry) :
  logLevelPriority m1 <= logLevelPriority m2 ->
  List.length (filteredLogs m2 f logs) <= List.length (filteredLogs m1 f logs).
Proof.
  intros Hle. rewrite <- (filteredLogs_refilter m1 m2 f logs Hle).
  apply filter_length_le.
Qed.

Lemma LogLevel_eqb_eq (a b : LogLevel) : LogLevel_eqb a b = true <-> a = b.
Proof. destruct a, b; simpl; split; congruence. Qed.

(** What the list shows: the entries of the buffer, in the order of the
    buffer, whose priority is at least the minimum and which the user's filter
    selects. *)
Lemma filteredLogs_exact (m : LogLevel) (g : Filter) (logs : list LogEntry)
    (log : LogEntry) :
  In log (filteredLogs m g logs) <->
  In log logs /\
  logLevelPriority (level log) >= logLevelPriority m /\
  match g with
  | all => True
  | only l => level log = l
  end.
Proof.
  unfold filteredLogs. rewrite filter_In, andb_true_iff, passesEnvFilter_spec.
  destruct g as [|l]; simpl.
  - tauto.
  - rewrite LogLevel_eqb_eq. tauto.
Qed.

Lemma filteredLogs_all (m : LogLevel) (logs : list LogEntry) :
  filteredLogs m all logs =
  List.filter (fun log => logLevelPriority m <=? logLevelPriority (level log)) logs.
Proof.
  unfold filteredLogs. apply filter_ext. intros log. simpl. apply andb_true_r.
Qed.

(** C6.  The list shows exactly the entries of the buffer whose priority is
    at least that of the minimum level, under debug < info < warn < error,
    and which the user's filter selects; with the filter "all" it is the
    buffer filtered by that comparison alone, and the minimum level is the
    [logLevel] of the environment's config.  Raising the minimum level from
    [m1] to [m2] only removes entries: what is shown under [m2] is shown under
    [m1], in the same order, for every user filter and every list of logs;
    hence the number of entries shown decreases along debug, info, warn,
    error. *)
Theorem log_admission_monotone
    (m1 m2 : LogLevel) (f : Filter) (logs : list LogEntry)
    (Hle : logLevelPriority m1 <= logLevelPriority m2) :
  (forall m log,
      passesEnvFilter m log = true <->
      logLevelPriority (level log) >= logLevelPriority m) /\
  (logLevelPriority debug < logLevelPriority info /\
   logLevelPriority info < logLevelPriority warn /\
   logLevelPriority warn < logLevelPriority error) /\
  (forall m g log,
      In log (filteredLogs m g logs) <->
      In log logs /\
      logLevelPriority (level log) >= logLevelPriority m /\
      match g with
      | all => True
      | only l => level log = l
      end) /\
  (forall m,
      filteredLogs m all logs =
      List.filter (fun log => logLevelPriority m <=? logLevelPriority (level log))
        logs) /\
  (forall env g log,
      In log (visibleLogs env g logs) <->
      In log logs /\
      logLevelPriority (level log)
      >= logLevelPriority (logLevel (EnvironmentContext.config env)) /\
      match g with
      | all => True
      | only l => level log = l
      end) /\
  (forall log, passesEnvFilter m2 log = true -> passesEnvFilter m1 log = true) /\
  incl (filteredLogs m2 f logs) (filteredLogs m1 f logs) /\
  filteredLogs m2 f logs = filteredLogs m2 f (filteredLogs m1 f logs) /\
  List.length (filteredLogs m2 f logs) <= List.length (filteredLogs m1 f logs) /\
  (List.length (filteredLogs error f logs) <= List.length (filteredLogs warn f logs) /\
   List.length (filteredLogs warn f logs) <= List.length (filteredLogs info f logs) /\
   List.length (filteredLogs info f logs) <= List.length (filteredLogs debug f logs)).
Proof.
  split; [exact passesEnvFilter_spec|].
  split; [simpl; lia|].
  split; [intros m g log; apply filteredLogs_exact|].
  split; [intros m; apply filteredLogs_all|].
  split; [intros env g log; unfold visibleLogs; apply filteredLogs_exact|].
  split; [intros log; now apply passesEnvFilter_mono|].
  split.
  { intros log. unfold filteredLogs. rewrite !filter_In.
    intros [Hin Hp]. split; [exact Hin|].
    apply andb_true_iff in Hp as [Hp Hu].
    rewrite (passesEnvFilter_mono m1 m2 log Hle Hp). exact Hu. }
  split; [symmetry; now apply filteredLogs_refilter|].
  split; [now apply filteredLogs_count_mono|].
  repeat split; apply filteredLogs_count_mono; simpl; lia.
Qed.

Lemma log_admission_monotone_witness :
  (In (mkLog debug "Fetching user data..." "API")
      (filteredLogs info all Samples.sampleStream) <->
   In (mkLog debug "Fetching user data..." "API") Samples.sampleStream /\
   logLevelPriority debug >= logLevelPriority info /\ True) /\
  List.length (filteredLogs error all Samples.sampleStream)
  <= List.length (filteredLogs info all Samples.sampleStream).
Proof.
  assert (Hle : logLevelPriority info <= logLevelPriority error) by (simpl; lia).
  destruct (log_admission_monotone info error all Samples.sampleStream Hle)
    as (_ & _ & Hexact & _ & _ & _ & _ & _ & Hcount & _).
  split; [exact (Hexact info all (mkLog debug "Fetching user data..." "API"))|].
  exact Hcount.
Defined.

End LogFilter.

(** ** Comparisons on numbers *)

Section Numbers.

Lemma ltb_lt (a b : Q) : JS.ltb a b = true <-> (a < b)%Q.
Proof.
  unfold JS.ltb. rewrite negb_true_iff.
  split.
  - intros H. apply Qnot_le_lt. intros Hle.
    apply Qle_bool_iff in Hle. congruence.
  - intros H. destruct (Qle_bool b a) eqn:E; [|reflexivity].
    apply Qle_bool_iff in E. exfalso. exact (Qlt_not_le _ _ H E).
Qed.

Lemma ltb_ge (a b : Q) : JS.ltb a b = false <-> (b <= a)%Q.
Proof.
  unfold JS.ltb. rewrite negb_false_iff. apply Qle_bool_iff.
Qed.

Lemma gtb_gt (a b : Q) : JS.gtb a b = true <-> (b < a)%Q.
Proof. apply ltb_lt. Qed.

Lemma gtb_le (a b : Q) : JS.gtb a b = false <-> (a <= b)%Q.
Proof. apply ltb_ge. Qed.

(** A draw scaled to a percentage lies in [[0,100)]. *)
Lemma percent_range (w : JS.World) (n : nat) :
  JS.fair w -> (0 <= JS.rand w n * 100 /\ JS.rand w n * 100 < 100)%Q.
Proof. intros Hf. destruct (Hf n). split; lra. Qed.

End Numbers.

(** ** Rounding to a double *)

Section Doubles.

Local Open Scope Q_scope.

Lemma two_nonzero : ~ 2 == 0.
Proof. discriminate. Qed.

Lemma pow2_pos (e : Z) : 0 < JS.pow2 e.
Proof. apply Qpower_0_lt. reflexivity. Qed.

Lemma pow2_add (m n : Z) : JS.pow2 (m + n) == JS.pow2 m * JS.pow2 n.
Proof. apply Qpower_plus. exact two_nonzero. Qed.

Lemma pow2_le (m n : Z) : (m <= n)%Z -> JS.pow2 m <= JS.pow2 n.
Proof. intros H. apply Qpower_le_compat_l; [exact H | discriminate]. Qed.

Lemma pow2_Z (n : Z) : (0 <= n)%Z -> JS.pow2 n == inject_Z (2 ^ n).
Proof. intros H. unfold JS.pow2. now rewrite Zpower_Qpower. Qed.

(** [ilog2 x] is the exponent of the binade of [x]. *)
Lemma ilog2_spec (x : Q) :
  0 < x -> JS.pow2 (JS.ilog2 x) <= x /\ x < JS.pow2 (JS.ilog2 x + 1).
Proof.
  intros Hx. destruct x as [p q].
  assert (Hp : (0 < p)%Z) by (unfold Qlt in Hx; simpl in Hx; lia).
  pose proof (Z.log2_spec p Hp) as [Hpl Hph].
  pose proof (Z.log2_spec (Zpos q) (Pos2Z.is_pos q)) as [Hql Hqh].
  pose proof (Z.log2_nonneg p) as Ha.
  pose proof (Z.log2_nonneg (Zpos q)) as Hb.
  set (a := Z.log2 p) in *. set (b := Z.log2 (Zpos q)) in *.
  assert (Hhigh : p # q < JS.pow2 (a - b + 1)).
  { apply (Qmult_lt_r _ _ (JS.pow2 b) (pow2_pos b)).
    rewrite <- pow2_add.
    replace (a - b + 1 + b)%Z with (Z.succ a) by lia.
    rewrite (pow2_Z b Hb), (pow2_Z (Z.succ a)) by lia.
    unfold Qlt, Qmult, inject_Z. simpl.
    rewrite ?Pos.mul_1_r, ?Z.mul_1_r.
    apply Z.le_lt_trans with (p * Z.pos q)%Z.
    - apply Z.mul_le_mono_nonneg_l; lia.
    - apply Zmult_lt_compat_r; lia. }
  assert (Hlow : JS.pow2 (a - b - 1) <= p # q).
  { apply (Qmult_le_r _ _ (JS.pow2 (b + 1)) (pow2_pos (b + 1))).
    rewrite <- pow2_add.
    replace (a - b - 1 + (b + 1))%Z with a by lia.
    rewrite (pow2_Z a Ha), (pow2_Z (b + 1)) by lia.
    unfold Qle, Qmult, inject_Z. simpl.
    rewrite ?Pos.mul_1_r, ?Z.mul_1_r.
    replace (b + 1)%Z with (Z.succ b) by lia.
    apply Z.le_trans with (2 ^ a * 2 ^ Z.succ b)%Z.
    - apply Z.mul_le_mono_nonneg_l; lia.
    - apply Z.mul_le_mono_nonneg_r; lia. }
  unfold JS.ilog2. simpl Qnum. simpl Qden. fold a b.
  destruct (Qle_bool (JS.pow2 (a - b)) (p # q)) eqn:Hcmp.
  - apply Qle_bool_iff in Hcmp. now split.
  - split; [exact Hlow|].
    replace (a - b - 1 + 1)%Z with (a - b)%Z by lia.
    apply Qnot_le_lt. intros Hle. apply Qle_bool_iff in Hle. congruence.
Qed.

Lemma ilog2_mono (x y : Q) : 0 < x -> x <= y -> (JS.ilog2 x <= JS.ilog2 y)%Z.
Proof.
  intros Hx Hxy.
  assert (Hy : 0 < y) by (apply Qlt_le_trans with x; assumption).
  destruct (ilog2_spec x Hx) as [Hxl _].
  destruct (ilog2_spec y Hy) as [_ Hyh].
  destruct (Z.le_gt_cases (JS.ilog2 x) (JS.ilog2 y)) as [Hle|Hgt]; [exact Hle|].
  exfalso. apply (Qlt_irrefl y).
  apply Qlt_le_trans with (JS.pow2 (JS.ilog2 y + 1)); [exact Hyh|].
  apply Qle_trans with (JS.pow2 (JS.ilog2 x)); [apply pow2_le; lia|].
  now apply Qle_trans with x.
Qed.

Lemma rne_near_floor (q : Q) :
  (Qfloor q <= JS.rne q <= Qfloor q + 1)%Z.
Proof.
  unfold JS.rne.
  destruct (JS.ltb _ _); [lia|].
  destruct (JS.ltb _ _); [lia|].
  destruct (Z.even _); lia.
Qed.

Lemma rne_Z (n : Z) : JS.rne (inject_Z n) = n.
Proof.
  unfold JS.rne. rewrite Qfloor_Z.
  assert (H : JS.ltb (inject_Z n - inject_Z n) (1 # 2) = true)
    by (apply ltb_lt; lra).
  now rewrite H.
Qed.

Lemma rne_mono (p q : Q) : p <= q -> (JS.rne p <= JS.rne q)%Z.
Proof.
  intros Hpq.
  pose proof (Qfloor_resp_le p q Hpq) as Hfloor.
  pose proof (rne_near_floor p) as Hp. pose proof (rne_near_floor q) as Hq.
  destruct (Z.eq_dec (Qfloor p) (Qfloor q)) as [Heq|Hne]; [|lia].
  unfold JS.rne. rewrite <- Heq.
  set (f := Qfloor p) in *.
  destruct (JS.ltb (p - inject_Z f) (1 # 2)) eqn:Hp1.
  - destruct (JS.ltb (q - inject_Z f) (1 # 2)); [lia|].
    destruct (JS.ltb (1 # 2) (q - inject_Z f)); [lia|].
    destruct (Z.even f); lia.
  - apply ltb_ge in Hp1.
    assert (Hq1 : JS.ltb (q - inject_Z f) (1 # 2) = false) by (apply ltb_ge; lra).
    rewrite Hq1.
    destruct (JS.ltb (1 # 2) (p - inject_Z f)) eqn:Hp2.
    + apply ltb_lt in Hp2.
      assert (Hq2 : JS.ltb (1 # 2) (q - inject_Z f) = true) by (apply ltb_lt; lra).
      rewrite Hq2. lia.
    + destruct (JS.ltb (1 # 2) (q - inject_Z f)); [|lia].
      destruct (Z.even f); lia.
Qed.

(** The exponent of the last place, and what it says about [x]. *)
Lemma ulp_exponent (x : Q) :
  0 < x ->
  let e := Z.max (JS.ilog2 x - 52) (-1074) in
  x / JS.pow2 e <= inject_Z (2 ^ 53) /\
  ((-1074 < e)%Z -> inject_Z (2 ^ 52) <= x / JS.pow2 e).
Proof.
  intros Hx e. destruct (ilog2_spec x Hx) as [Hl Hh].
  pose proof (pow2_pos e) as He.
  split.
  - apply Qle_shift_div_r; [exact He|].
    rewrite <- (pow2_Z 53) by lia. rewrite <- pow2_add.
    apply Qlt_le_weak. apply Qlt_le_trans with (JS.pow2 (JS.ilog2 x + 1)); [exact Hh|].
    apply pow2_le. subst e. lia.
  - intros Hnormal. apply Qle_shift_div_l; [exact He|].
    rewrite <- (pow2_Z 52) by lia. rewrite <- pow2_add.
    apply Qle_trans with (JS.pow2 (JS.ilog2 x)); [|exact Hl].
    apply pow2_le. subst e. lia.
Qed.

Lemma double_pos_value (x : Q) :
  JS.double_pos x ==
  inject_Z (JS.rne (x / JS.pow2 (Z.max (JS.ilog2 x - 52) (-1074))))
  * JS.pow2 (Z.max (JS.ilog2 x - 52) (-1074)).
Proof. unfold JS.double_pos. apply Qred_correct. Qed.

(** Rounding keeps the order of positive numbers. *)
Lemma double_pos_mono (x y : Q) :
  0 < x -> x <= y -> JS.double_pos x <= JS.double_pos y.
Proof.
  intros Hx Hxy.
  assert (Hy : 0 < y) by (apply Qlt_le_trans with x; assumption).
  rewrite !double_pos_value.
  pose proof (ilog2_mono x y Hx Hxy) as Hlog.
  destruct (ulp_exponent x Hx) as [Hxh _].
  destruct (ulp_exponent y Hy) as [_ Hyl].
  set (ex := Z.max (JS.ilog2 x - 52) (-1074)) in *.
  set (ey := Z.max (JS.ilog2 y - 52) (-1074)) in *.
  pose proof (pow2_pos ex) as Hex. pose proof (pow2_pos ey) as Hey.
  destruct (Z.eq_dec ex ey) as [Heq|Hne].
  - rewrite <- Heq. apply Qmult_le_compat_r; [|now apply Qlt_le_weak].
    rewrite <- Zle_Qle. apply rne_mono.
    apply Qle_shift_div_l; [exact Hex|].
    setoid_replace (x / JS.pow2 ex * JS.pow2 ex) with x; [exact Hxy|].
    field. intros H0. rewrite H0 in Hex. discriminate.
  - assert (Hlt : (ex < ey)%Z) by (subst ex ey; lia).
    apply Qle_trans with (inject_Z (2 ^ 53) * JS.pow2 ex).
    + apply Qmult_le_compat_r; [|now apply Qlt_le_weak].
      rewrite <- Zle_Qle. rewrite <- (rne_Z (2 ^ 53)). now apply rne_mono.
    + apply Qle_trans with (inject_Z (2 ^ 52) * JS.pow2 ey).
      * rewrite <- (pow2_Z 53), <- (pow2_Z 52) by lia.
        rewrite <- !pow2_add. apply pow2_le. lia.
      * apply Qmult_le_compat_r; [|now apply Qlt_le_weak].
        rewrite <- Zle_Qle. rewrite <- (rne_Z (2 ^ 52)). apply rne_mono.
        apply Hyl. subst ex ey. lia.
Qed.

Lemma double_pos_nonneg (x : Q) : 0 < x -> 0 <= JS.double_pos x.
Proof.
  intros Hx. rewrite double_pos_value.
  apply Qmult_le_0_compat; [|apply Qlt_le_weak, pow2_pos].
  change 0 with (inject_Z 0). rewrite <- Zle_Qle.
  rewrite <- (rne_Z 0). apply rne_mono.
  apply Qle_shift_div_l; [apply pow2_pos|]. rewrite Qmult_0_l. now apply Qlt_le_weak.
Qed.

(** A number between 0 and a double [a] rounds to a number between 0 and
    [a]. *)
Lemma double_within (x a : Q) :
  0 <= x -> x <= a -> JS.double a == a ->
  0 <= JS.double x /\ JS.double x <= a.
Proof.
  intros H0 Hxa Ha. unfold JS.double in *.
  destruct (JS.ltb 0 x) eqn:Hpos.
  - apply ltb_lt in Hpos.
    assert (Hapos : JS.ltb 0 a = true)
      by (apply ltb_lt; now apply Qlt_le_trans with x).
    rewrite Hapos in Ha. split.
    + now apply double_pos_nonneg.
    + rewrite <- Ha. now apply double_pos_mono.
  - assert (Hneg : JS.ltb x 0 = false) by now apply ltb_ge.
    rewrite Hneg. split; [apply Qle_refl|].
    now apply Qle_trans with x.
Qed.

End Doubles.

(** The rounding agrees with the doubles of the machine on the values the
    simulator meets first: one conversion in three users is stored as
    [33.33333333333333], and [100 * 1 / 3] evaluates to [33.333333333333336]. *)
Example double_one_third :
  JS.double (JS.double (1 # 3) * 100) = (2345624805922133 # 70368744177664)%Q /\
  JS.double (JS.double (100 * 1) / 3) = (4691249611844267 # 140737488355328)%Q /\
  (33.333333333333325 < 2345624805922133 # 70368744177664)%Q /\
  (2345624805922133 # 70368744177664 < 33.333333333333335)%Q /\
  (33.333333333333335 < 4691249611844267 # 140737488355328)%Q /\
  (4691249611844267 # 140737488355328 < 33.33333333333334)%Q.
Proof. repeat split; vm_compute; reflexivity. Qed.

(** For all counters up to 40 users, the machine computes the rate that
    [double] gives. *)
Example double_agrees_with_machine :
  forallb
    (fun u =>
       forallb
         (fun c =>
            match JS.of_machine (JS.machine_rate c (S u)) with
            | Some v =>
                Qeq_bool v (JS.double (JS.double (JS.of_nat c / JS.of_nat (S u)) * 100))
            | None => false
            end)
         (seq 0 (S (S u))))
    (seq 0 40)
  = true.
Proof. vm_compute. reflexivity. Qed.

Example double_exact_values :
  JS.double 0 = 0%Q /\ JS.double 1 = 1%Q /\ JS.double 100 = 100%Q /\
  JS.double (1 # 2) = (1 # 2)%Q /\ JS.double (JS.double (1 # 50) * 100) = 2%Q.
Proof. repeat split; vm_compute; reflexivity. Qed.


(** ** The feature-flag evaluator *)

Section FlagEvaluator.
Import Environment FeatureFlags.

Variable registry : list FeatureFlag.

Lemma lookup_absent (flagId : string) :
  (forall f, In f registry -> id f <> flagId) ->
  lookup registry flagId = None.
Proof.
  unfold lookup. induction registry as [|f fs IH]; intros Hno; simpl.
  - reflexivity.
  - destruct (String.eqb_spec (id f) flagId) as [E|_].
    + exfalso. apply (Hno f); [now left | exact E].
    + apply IH. intros g Hg. apply Hno. now right.
Qed.

Lemma lookup_present (flag : FeatureFlag) :
  NoDup (List.map id registry) -> In flag registry ->
  lookup registry (id flag) = Some flag.
Proof.
  unfold lookup. induction registry as [|f fs IH]; intros Hnd Hin; simpl.
  - destruct Hin.
  - inversion Hnd as [|? ? Hfresh Hnd']; subst.
    destruct Hin as [->|Hin].
    + now rewrite String.eqb_refl.
    + destruct (String.eqb_spec (id f) (id flag)) as [E|_].
      * exfalso. apply Hfresh. rewrite E. now apply in_map.
      * now apply IH.
Qed.

(** C5.  A flag id that no flag of the registry carries is answered with
    [false], after exactly one warning that names the id was printed; no
    random value is drawn. *)
Theorem isFeatureEnabled_unknown_flag
    (env : Environment) (flagId : string) (w : JS.World)
    (Hno : forall f, In f registry -> id f <> flagId) :
  isFeatureEnabledIn registry env flagId w =
    (JS.Ok false,
     JS.mkWorld (JS.rand w) (JS.cursor w) (JS.console w ++ [notFound flagId])).
Proof.
  unfold isFeatureEnabledIn. now rewrite (lookup_absent flagId Hno).
Qed.

(** C3.  For a flag of a registry with unique ids that is switched off for
    the environment, the evaluator answers [false] and leaves the world
    untouched: no draw is made, whatever the rollout percentage is. *)
Theorem isFeatureEnabled_environment_gate
    (flag : FeatureFlag) (env : Environment) (w : JS.World)
    (Hids : NoDup (List.map id registry))
    (Hin : In flag registry)
    (Hoff : at_env (enabled flag) env = false) :
  isFeatureEnabledIn registry env (id flag) w = (JS.Ok false, w).
Proof.
  unfold isFeatureEnabledIn.
  rewrite (lookup_present flag Hids Hin), Hoff. reflexivity.
Qed.

(** C4.  For a flag of a registry with unique ids that is switched on for the
    environment: without a rollout percentage, or with one of at least 100,
    the answer is [true] and nothing is drawn; with a percentage [p] below
    100 one value [u] is drawn and the answer is whether [u * 100 < p]; and
    with [p = 0] the answer is [false] for every draw of [[0,1)]. *)
Theorem isFeatureEnabled_rollout
    (flag : FeatureFlag) (env : Environment) (w : JS.World)
    (Hids : NoDup (List.map id registry))
    (Hin : In flag registry)
    (Hon : at_env (enabled flag) env = true) :
  let result := isFeatureEnabledIn registry env (id flag) w in
  let u := (JS.rand w (JS.cursor w) * 100)%Q in
  (rolloutPercentage flag = None -> result = (JS.Ok true, w)) /\
  (forall p, rolloutPercentage flag = Some p -> (100 <= p)%Q ->
             result = (JS.Ok true, w)) /\
  (forall p, rolloutPercentage flag = Some p -> (p < 100)%Q ->
             result = (JS.Ok (JS.ltb u p), JS.next w) /\
             (JS.ltb u p = true <-> (u < p)%Q)) /\
  (forall p, rolloutPercentage flag = Some p -> (p == 0)%Q -> JS.fair w ->
             result = (JS.Ok false, JS.next w)).
Proof.
  intros result u. subst result.
  unfold isFeatureEnabledIn.
  rewrite (lookup_present flag Hids Hin), Hon. simpl.
  split; [|split; [|split]].
  - intros ->. reflexivity.
  - intros p -> Hp. apply ltb_ge in Hp. now rewrite Hp.
  - intros p -> Hp. apply ltb_lt in Hp. rewrite Hp.
    split; [reflexivity | apply ltb_lt].
  - intros p -> Hp Hfair.
    assert (Hlt : JS.ltb p 100 = true) by (apply ltb_lt; lra).
    rewrite Hlt. unfold JS.bind, JS.Math_random, JS.ret.
    assert (Hu : JS.ltb u p = false).
    { apply ltb_ge. destruct (percent_range w (JS.cursor w) Hfair). subst u. lra. }
    subst u. now rewrite Hu.
Qed.

End FlagEvaluator.

Section FlagRegistry.
Import Environment FeatureFlags.

Lemma featureFlags_ids_unique : NoDup (List.map id featureFlags).
Proof.
  simpl. repeat constructor; simpl; intuition discriminate.
Qed.

Lemma featureFlags_no_such_flag (f : FeatureFlag) :
  In f featureFlags -> id f <> "no_such_flag".
Proof.
  simpl. intros H.
  repeat (destruct H as [<-|H]; [discriminate|]). destruct H.
Qed.

Lemma isFeatureEnabled_unknown_flag_witness :
  isFeatureEnabledIn featureFlags production "no_such_flag"
    (Samples.constantWorld 0.5) =
  (JS.Ok false,
   JS.mkWorld (fun _ => 0.5%Q) 0 [notFound "no_such_flag"]).
Proof.
  exact (isFeatureEnabled_unknown_flag featureFlags production "no_such_flag"
           (Samples.constantWorld 0.5) featureFlags_no_such_flag).
Defined.

Lemma isFeatureEnabled_environment_gate_witness :
  isFeatureEnabledIn featureFlags production "dark_mode_v2"
    (Samples.constantWorld 0.5) =
  (JS.Ok false, Samples.constantWorld 0.5).
Proof.
  apply (isFeatureEnabled_environment_gate featureFlags Samples.darkMode
           production (Samples.constantWorld 0.5)).
  - exact featureFlags_ids_unique.
  - simpl. now left.
  - reflexivity.
Defined.

Lemma isFeatureEnabled_rollout_witness :
  isFeatureEnabledIn featureFlags production "new_dashboard"
    (Samples.constantWorld 0.3) =
  (JS.Ok (JS.ltb (0.3 * 100) 50), JS.next (Samples.constantWorld 0.3)).
Proof.
  assert (Hin : In Samples.newDashboard featureFlags) by (simpl; tauto).
  assert (Hon : at_env (enabled Samples.newDashboard) production = true)
    by reflexivity.
  destruct (isFeatureEnabled_rollout featureFlags Samples.newDashboard
              production (Samples.constantWorld 0.3)
              featureFlags_ids_unique Hin Hon) as (_ & _ & Hbelow & _).
  refine (proj1 (Hbelow 50%Q eq_refl _)).
  reflexivity.
Defined.

End FlagRegistry.

(** ** The simulator: the rollout gate *)

Section RolloutGate.
Import ABTesting Runs.

Lemma fair_next (w : JS.World) : JS.fair w -> JS.fair (JS.next w).
Proof. intros Hf n. exact (Hf n). Qed.

Lemma skip_next (n : nat) (w : JS.World) : skip n (JS.next w) = skip (S n) w.
Proof. unfold skip, JS.next. simpl. f_equal. lia. Qed.

(** The early [return]: one draw is used, the state is the one given. *)
Lemma simulateUser_rejected (s : State) (w : JS.World) :
  (rollout s <= JS.rand w (JS.cursor w) * 100)%Q ->
  simulateUser s w = (JS.Ok s, JS.next w).
Proof.
  intros Hge. unfold simulateUser, JS.bind, JS.Math_random.
  apply ltb_ge in Hge. rewrite Hge. reflexivity.
Qed.

Lemma simulateUsers_zero_rollout (n : nat) :
  forall (s : State) (w : JS.World),
    (rollout s == 0)%Q -> JS.fair w ->
    simulateUsers n s w = (JS.Ok s, skip n w).
Proof.
  induction n as [|n IH]; intros s w Hzero Hfair.
  - destruct w. reflexivity.
  - simpl. unfold JS.bind.
    rewrite simulateUser_rejected.
    + rewrite (IH s (JS.next w) Hzero (fair_next w Hfair)).
      now rewrite skip_next.
    + destruct (percent_range w (JS.cursor w) Hfair). lra.
Qed.

(** C7.  When the admission draw [u * 100] is not below the rollout
    percentage, [simulateUser] returns the state it was given: the total, the
    results and everything else are as before, and only the one draw is
    used.  With a rollout of 0 this is so for every draw of [[0,1)], so any
    number of simulated users leaves the state as it was; started with no
    users, the total is still 0. *)
Theorem simulateUser_outside_rollout
    (s : State) (w : JS.World) (n : nat) :
  ((rollout s <= JS.rand w (JS.cursor w) * 100)%Q ->
     simulateUser s w = (JS.Ok s, JS.next w)) /\
  ((rollout s == 0)%Q -> JS.fair w ->
     simulateUser s w = (JS.Ok s, JS.next w) /\
     simulateUsers n s w = (JS.Ok s, skip n w)) /\
  ((rollout s == 0)%Q -> JS.fair w -> totalUsers s = 0 ->
     exists s', fst (simulateUsers n s w) = JS.Ok s' /\ totalUsers s' = 0).
Proof.
  split; [apply simulateUser_rejected|].
  split.
  - intros Hzero Hfair. split.
    + apply simulateUser_rejected.
      destruct (percent_range w (JS.cursor w) Hfair). lra.
    + now apply simulateUsers_zero_rollout.
  - intros Hzero Hfair Hnone. exists s.
    now rewrite simulateUsers_zero_rollout.
Qed.

Lemma constantWorld_fair (x : Q) :
  (0 <= x)%Q -> (x < 1)%Q -> JS.fair (Samples.constantWorld x).
Proof. intros H0 H1 n. simpl. now split. Qed.

Lemma simulateUser_outside_rollout_witness :
  simulateUser mounted (Samples.constantWorld 0.5) =
    (JS.Ok mounted, JS.next (Samples.constantWorld 0.5)) /\
  simulateUsers 5 (setRollout 0 mounted) (Samples.constantWorld 0.5) =
    (JS.Ok (setRollout 0 mounted), skip 5 (Samples.constantWorld 0.5)).
Proof.
  split.
  - apply (proj1 (simulateUser_outside_rollout mounted
                    (Samples.constantWorld 0.5) 0)).
    vm_compute. discriminate.
  - apply (proj1 (proj2 (simulateUser_outside_rollout (setRollout 0 mounted)
                           (Samples.constantWorld 0.5) 5))).
    + reflexivity.
    + apply constantWorld_fair; vm_compute; [discriminate | reflexivity].
Defined.

End RolloutGate.

(** ** The simulator: reset *)

Section ResetSimulation.
Import ABTesting Runs.

Lemma resetSimulation_twice (s : State) :
  resetSimulation (resetSimulation s) = resetSimulation s.
Proof. reflexivity. Qed.

Lemma zeroResults_zeroed (vs : list Variant) : Forall zeroed (zeroResults vs).
Proof.
  unfold zeroResults. apply Forall_forall. intros r Hr.
  apply in_map_iff in Hr as (v & <- & _). now repeat split.
Qed.

Lemma zeroResults_ids (vs : list Variant) :
  List.map variantId (zeroResults vs) = List.map id vs.
Proof.
  unfold zeroResults. rewrite map_map. reflexivity.
Qed.

(** C9.  Resetting once or several times in a row gives the same state.
    In it the total is 0, the simulation is stopped, and there is one result
    per variant of the selected experiment, each with no users, no
    conversions and rate 0; the selected experiment and the rollout are
    kept. *)
Theorem resetSimulation_idempotent (s : State) (n : nat) :
  Nat.iter (S n) resetSimulation s = resetSimulation s /\
  totalUsers (resetSimulation s) = 0 /\
  isSimulating (resetSimulation s) = false /\
  List.map variantId (results (resetSimulation s)) =
    List.map id (variants (selectedExperiment s)) /\
  Forall zeroed (results (resetSimulation s)) /\
  selectedExperiment (resetSimulation s) = selectedExperiment s /\
  rollout (resetSimulation s) = rollout s.
Proof.
  split.
  - induction n as [|n IH]; [reflexivity|].
    change (Nat.iter (S (S n)) resetSimulation s)
      with (resetSimulation (Nat.iter (S n) resetSimulation s)).
    rewrite IH. apply resetSimulation_twice.
  - repeat split.
    + apply zeroResults_ids.
    + apply zeroResults_zeroed.
Qed.

End ResetSimulation.

(** ** The simulator: the counters *)

Section Counters.
Import ABTesting Runs.

Lemma of_nat_positive (n : nat) : ~ (JS.of_nat (n + 1) == 0)%Q.
Proof.
  unfold JS.of_nat, Qeq. simpl. lia.
Qed.

(** What [simulateUser] can return: the state given, or the state with one
    more user recorded for one variant of the selected experiment. *)
Lemma simulateUser_cases (s s' : State) (w w' : JS.World) :
  simulateUser s w = (JS.Ok s', w') ->
  s' = s \/
  exists variant converted,
    In variant (variants (selectedExperiment s)) /\
    s' = mkState (selectedExperiment s) (isSimulating s) (totalUsers s + 1)
           (recordUser variant converted (results s)) (rollout s).
Proof.
  unfold simulateUser, JS.bind, JS.Math_random, JS.ret, JS.throw.
  destruct (JS.ltb (JS.rand w (JS.cursor w) * 100) (rollout s)); simpl.
  - destruct (JS.index _ _) as [variant|] eqn:Hidx; [|discriminate].
    intros [= <- _]. right. exists variant. eexists. split; [|reflexivity].
    unfold JS.index in Hidx.
    destruct (_ <? 0)%Z; [discriminate|].
    exact (nth_error_In _ _ Hidx).
  - intros [= <- _]. now left.
Qed.

Lemma recordUser_ids (v : Variant) (c : bool) (rs : list ExperimentResult) :
  List.map variantId (recordUser v c rs) = List.map variantId rs.
Proof.
  unfold recordUser. rewrite map_map. apply map_ext.
  intros r. now destruct (String.eqb (variantId r) (id v)).
Qed.

Lemma recordUser_absent (v : Variant) (c : bool) (rs : list ExperimentResult) :
  ~ In (id v) (List.map variantId rs) -> recordUser v c rs = rs.
Proof.
  induction rs as [|r rs IH]; intros Hnot; [reflexivity|].
  simpl in *. destruct (String.eqb_spec (variantId r) (id v)) as [E|_].
  - exfalso. apply Hnot. now left.
  - f_equal. apply IH. intros Hin. apply Hnot. now right.
Qed.

(** With one result per variant id, exactly one result gains a user. *)
Lemma recordUser_users (v : Variant) (c : bool) (rs : list ExperimentResult) :
  NoDup (List.map variantId rs) -> In (id v) (List.map variantId rs) ->
  list_sum (List.map users (recordUser v c rs)) =
  list_sum (List.map users rs) + 1.
Proof.
  induction rs as [|r rs IH]; intros Hnd Hin; [destruct Hin|].
  inversion Hnd as [|? ? Hfresh Hnd']; subst.
  change (recordUser v c (r :: rs))
    with ((if String.eqb (variantId r) (id v)
           then mkResult (variantId r) (users r + 1)
                  (conversions r + (if c then 1 else 0))
                  (JS.double
                     (JS.double (JS.of_nat (conversions r + (if c then 1 else 0))
                                 / JS.of_nat (users r + 1)) * 100))%Q
           else r) :: recordUser v c rs).
  destruct (String.eqb_spec (variantId r) (id v)) as [E|Hne].
  - rewrite recordUser_absent by (rewrite <- E; exact Hfresh).
    simpl. lia.
  - destruct Hin as [E|Hin]; [contradiction|].
    simpl. rewrite (IH Hnd' Hin). lia.
Qed.

Lemma recordUser_rates (v : Variant) (c : bool) (rs : list ExperimentResult) :
  Forall (fun r => conversions r <= users r /\
                   (rate r == storedRate (conversions r) (users r))%Q) rs ->
  Forall (fun r => conversions r <= users r /\
                   (rate r == storedRate (conversions r) (users r))%Q)
         (recordUser v c rs).
Proof.
  intros Hall. unfold recordUser. apply Forall_map.
  eapply Forall_impl; [|exact Hall].
  intros r [Hle Hrate].
  destruct (String.eqb (variantId r) (id v)); [|now split].
  split.
  - simpl. destruct c; lia.
  - unfold storedRate. cbn [users conversions rate].
    destruct (Nat.eqb_spec (users r + 1) 0) as [E|_]; [lia | reflexivity].
Qed.

Lemma experiments_variant_ids_unique (exp : Experiment) :
  In exp experiments -> NoDup (List.map id (variants exp)).
Proof.
  intros [<-|[<-|[]]]; simpl; repeat constructor; simpl; intuition discriminate.
Qed.

Lemma zeroResults_consistent (vs : list Variant) :
  0 = list_sum (List.map users (zeroResults vs)) /\
  Forall (fun r => conversions r <= users r /\
                   (rate r == storedRate (conversions r) (users r))%Q)
         (zeroResults vs).
Proof.
  split.
  - induction vs as [|v vs IH]; simpl; [reflexivity | exact IH].
  - eapply Forall_impl; [|apply zeroResults_zeroed].
    intros r (Hu & Hc & Hr). split; [lia|].
    unfold storedRate. rewrite Hu, Hr. reflexivity.
Qed.

(** The facts that hold between two events. *)
Lemma reachable_facts (s : State) :
  reachable s ->
  countersConsistent s /\ resultsFollowVariants s /\
  In (selectedExperiment s) experiments.
Proof.
  intros Hreach.
  induction Hreach as
    [ | exp s Hexp Hreach [[Htot Hall] [[Hids Hnd] Hsel]]
      | p s Hreach IH | s Hreach IH
      | s Hreach [_ [[_ Hnd] Hsel]]
      | s w s' w' Hreach [[Htot Hall] [[Hids Hnd] Hsel]] Hrun ].
  - split; [split|split; [split|]].
    + reflexivity.
    + repeat constructor.
    + reflexivity.
    + apply experiments_variant_ids_unique. now left.
    + now left.
  - unfold selectExperiment.
    destruct (String.eqb (exp_id exp) (exp_id (selectedExperiment s))).
    + now repeat split.
    + unfold initializeResults. simpl. split; [split|split; [split|]]; simpl.
      * apply zeroResults_consistent.
      * apply zeroResults_consistent.
      * apply zeroResults_ids.
      * now apply experiments_variant_ids_unique.
      * exact Hexp.
  - exact IH.
  - exact IH.
  - split; [split|split; [split|]]; simpl.
    + apply zeroResults_consistent.
    + apply zeroResults_consistent.
    + apply zeroResults_ids.
    + exact Hnd.
    + exact Hsel.
  - apply simulateUser_cases in Hrun as [->|(v & c & Hv & ->)].
    + now repeat split.
    + split; [split|split; [split|]]; simpl.
      * rewrite recordUser_users; [lia | now rewrite Hids |].
        rewrite Hids. now apply in_map.
      * now apply recordUser_rates.
      * now rewrite recordUser_ids.
      * exact Hnd.
      * exact Hsel.
Qed.

(** The click keeps the results and the total of the state it is made in. *)
Lemma clickExperiment_keeps (exp : Experiment) (s : State) :
  totalUsers (clickExperiment exp s) = totalUsers s /\
  results (clickExperiment exp s) = results s.
Proof.
  unfold clickExperiment.
  now destruct (String.eqb (exp_id exp) (exp_id (selectedExperiment s))).
Qed.

(** C10, as the code has it.  In every state in which the component is
    rendered, from the first render on and through any selection of an
    experiment of the table, move of the slider, start, stop, reset and
    simulated user, the total equals the sum of the users of all results and no
    result has more conversions than users.  The stored rate of a result is
    the double the code computes from its counters: the quotient
    [conversions / users] rounded, times 100, rounded again (0 without users).
    Between two events the results are aligned with the variants of the
    selected experiment, whose ids are distinct. *)
Theorem reachable_counters_consistent (s : State) (Hrender : rendered s) :
  countersConsistent s /\ (reachable s -> resultsFollowVariants s).
Proof.
  split.
  - destruct Hrender as [|s Hreach|exp s Hexp Hreach].
    + split; [reflexivity | constructor].
    + now apply reachable_facts.
    + destruct (reachable_facts s Hreach) as [[Htot Hall] _].
      destruct (clickExperiment_keeps exp s) as [Ht Hr].
      unfold countersConsistent. now rewrite Ht, Hr.
  - intros Hreach. now apply reachable_facts.
Qed.

End Counters.

Section CountersWitness.
Import ABTesting Runs.

Lemma afterOneUser_simulated :
  simulateUser mounted Samples.scriptedWorld =
    (JS.Ok Samples.afterOneUser, skip 4 Samples.scriptedWorld).
Proof. vm_compute. reflexivity. Qed.

Lemma reachable_counters_consistent_witness :
  countersConsistent Samples.afterOneUser /\
  (reachable Samples.afterOneUser -> resultsFollowVariants Samples.afterOneUser).
Proof.
  apply reachable_counters_consistent.
  apply render_settled.
  exact (reach_simulate mounted Samples.scriptedWorld _ _
           reach_mounted afterOneUser_simulated).
Defined.

Lemma reachable_batch (n : nat) :
  forall s w s' w',
    reachable s -> simulateUsers n s w = (JS.Ok s', w') -> reachable s'.
Proof.
  induction n as [|n IH]; intros s w s' w' Hreach Hrun.
  - now injection Hrun as <- _.
  - simpl in Hrun. unfold JS.bind in Hrun.
    destruct (simulateUser s w) as [[s1|e] w1] eqn:Hstep; [|discriminate].
    apply (IH s1 w1 s' w'); [|exact Hrun].
    exact (reach_simulate s w s1 w1 Hreach Hstep).
Qed.

Lemma afterThreeUsers_simulated :
  simulateUsers 3 mounted Samples.oneInThreeWorld =
    (JS.Ok Samples.afterThreeUsers, skip 12 Samples.oneInThreeWorld).
Proof. vm_compute. reflexivity. Qed.

(** C10 as the specification words it fails at one conversion in three users,
    a state the component reaches: the stored rate is the double
    [(1 / 3) * 100], which is neither the number [100 * 1 / 3] nor the double
    that [100 * 1 / 3] evaluates to. *)
Lemma stored_rate_is_not_exact :
  reachable Samples.afterThreeUsers /\
  In Samples.oneInThree (results Samples.afterThreeUsers) /\
  users Samples.oneInThree = 3 /\ conversions Samples.oneInThree = 1 /\
  ~ (rate Samples.oneInThree == observedRate Samples.oneInThree)%Q /\
  ~ (rate Samples.oneInThree
     == JS.double (JS.double (100 * JS.of_nat 1) / JS.of_nat 3))%Q.
Proof.
  split.
  - exact (reachable_batch 3 _ _ _ _ reach_mounted afterThreeUsers_simulated).
  - split; [now left|]. split; [reflexivity|]. split; [reflexivity|].
    split; vm_compute; discriminate.
Qed.

End CountersWitness.

(** ** The simulator: the winning variant *)

Section Winner.
Import ABTesting Runs.

Lemma nth_error_snoc {A} (l : list A) (b x : A) (j : nat) :
  nth_error (l ++ [b]) j = Some x ->
  (j < List.length l /\ nth_error l j = Some x) \/ (j = List.length l /\ x = b).
Proof.
  intros Hj. destruct (Nat.lt_ge_cases j (List.length l)) as [Hlt|Hge].
  - left. split; [exact Hlt|]. now rewrite nth_error_app1 in Hj.
  - right. rewrite nth_error_app2 in Hj by exact Hge.
    destruct (j - List.length l) as [|d] eqn:Hd.
    + simpl in Hj. split; [lia | congruence].
    + simpl in Hj. destruct d; discriminate.
Qed.

(** The reduction keeps the last of the results with the greatest rate. *)
Lemma fold_higherRate_lastGreatest (rest : list ExperimentResult) :
  forall x, lastGreatest (x :: rest) (fold_left higherRate rest x).
Proof.
  induction rest as [|b rest IH] using rev_ind; intros x.
  - exists 0. split; [reflexivity|]. split.
    + intros [|j] r' Hj; simpl in Hj.
      * injection Hj as <-. apply Qle_refl.
      * destruct j; discriminate.
    + intros [|j] r' Hlt Hj; [lia|]. destruct j; discriminate.
  - rewrite fold_left_app. simpl.
    destruct (IH x) as (i & Hi & Hall & Hlater).
    set (r := fold_left higherRate rest x) in *.
    assert (Hlen : i < List.length (x :: rest))
      by (apply nth_error_Some; congruence).
    change (x :: rest ++ [b]) with ((x :: rest) ++ [b]).
    unfold higherRate. destruct (JS.gtb (rate r) (rate b)) eqn:Hcmp.
    + apply gtb_gt in Hcmp.
      exists i. split; [now rewrite nth_error_app1|]. split.
      * intros j r' Hj. apply nth_error_snoc in Hj as [[_ Hj]|[_ ->]].
        -- exact (Hall j r' Hj).
        -- now apply Qlt_le_weak.
      * intros j r' Hlt Hj. apply nth_error_snoc in Hj as [[_ Hj]|[_ ->]].
        -- exact (Hlater j r' Hlt Hj).
        -- exact Hcmp.
    + apply gtb_le in Hcmp.
      exists (List.length (x :: rest)). split.
      * rewrite nth_error_app2 by lia. now rewrite Nat.sub_diag.
      * split.
        -- intros j r' Hj. apply nth_error_snoc in Hj as [[_ Hj]|[_ ->]].
           ++ apply Qle_trans with (rate r); [exact (Hall j r' Hj) | exact Hcmp].
           ++ apply Qle_refl.
        -- intros j r' Hlt Hj. apply nth_error_snoc in Hj as [[Hj' _]|[Hj' _]]; lia.
Qed.

(** A result whose rate exceeds all the others is the only candidate. *)
Lemma lastGreatest_strict (rs : list ExperimentResult) (r r0 : ExperimentResult)
    (k : nat) :
  nth_error rs k = Some r0 ->
  (forall j r', j <> k -> nth_error rs j = Some r' -> (rate r' < rate r0)%Q) ->
  lastGreatest rs r -> r = r0.
Proof.
  intros Hk Hstrict (i & Hi & Hall & _).
  destruct (Nat.eq_dec i k) as [->|Hne]; [congruence|].
  exfalso. apply (Qlt_irrefl (rate r0)).
  apply Qle_lt_trans with (rate r).
  - exact (Hall k r0 Hk).
  - exact (Hstrict i r Hne Hi).
Qed.

Lemma getWinningVariant_enough (total : nat) (x : ExperimentResult)
    (rest : list ExperimentResult) :
  100 <= total ->
  getWinningVariant total (x :: rest) = JS.Ok (Some (fold_left higherRate rest x)).
Proof.
  intros Hge. unfold getWinningVariant.
  destruct (Nat.ltb_spec total 100) as [Hlt|_]; [lia | reflexivity].
Qed.

(** C1, as the code has it.  [getWinningVariant] returns [null] exactly when
    there are fewer than 100 users.  With 100 users or more and a list of
    results that is not empty it returns a result whose rate no other result
    exceeds, and among several results with that rate the one that comes last
    in the list; a result whose rate is strictly above all the others is
    therefore the one returned. *)
Theorem getWinningVariant_last_greatest
    (total : nat) (rs : list ExperimentResult) :
  (getWinningVariant total rs = JS.Ok None <-> total < 100) /\
  (100 <= total -> rs <> [] ->
     exists r, getWinningVariant total rs = JS.Ok (Some r) /\ lastGreatest rs r) /\
  (100 <= total ->
     forall k r0,
       nth_error rs k = Some r0 ->
       (forall j r', j <> k -> nth_error rs j = Some r' -> (rate r' < rate r0)%Q) ->
       getWinningVariant total rs = JS.Ok (Some r0)).
Proof.
  split; [|split].
  - unfold getWinningVariant.
    destruct (Nat.ltb_spec total 100) as [Hlt|Hge].
    + now split.
    + split; [|lia]. destruct rs; simpl; discriminate.
  - intros Hge Hne. destruct rs as [|x rest]; [contradiction|].
    exists (fold_left higherRate rest x).
    split; [now apply getWinningVariant_enough|].
    apply fold_higherRate_lastGreatest.
  - intros Hge k r0 Hk Hstrict.
    destruct rs as [|x rest]; [destruct k; discriminate|].
    rewrite getWinningVariant_enough by exact Hge.
    do 2 f_equal.
    apply (lastGreatest_strict (x :: rest) _ r0 k Hk Hstrict).
    apply fold_higherRate_lastGreatest.
Qed.

Lemma getWinningVariant_last_greatest_witness :
  exists r,
    getWinningVariant 100 [Samples.tiedControl; Samples.tiedVariantA] =
      JS.Ok (Some r) /\
    lastGreatest [Samples.tiedControl; Samples.tiedVariantA] r.
Proof.
  apply (proj1 (proj2 (getWinningVariant_last_greatest 100
                         [Samples.tiedControl; Samples.tiedVariantA]))).
  - lia.
  - discriminate.
Defined.

(** C1 as the specification words it fails on a tie: of two results with the
    same rate the first one is the first with the greatest rate, and the
    code returns the second one. *)
Lemma getWinningVariant_tie_returns_later :
  (rate Samples.tiedControl == rate Samples.tiedVariantA)%Q /\
  firstGreatest [Samples.tiedControl; Samples.tiedVariantA] Samples.tiedControl /\
  getWinningVariant 100 [Samples.tiedControl; Samples.tiedVariantA] =
    JS.Ok (Some Samples.tiedVariantA) /\
  ~ firstGreatest [Samples.tiedControl; Samples.tiedVariantA] Samples.tiedVariantA.
Proof.
  split; [reflexivity|]. split; [|split].
  - exists 0. split; [reflexivity|]. split.
    + intros [|[|j]] r' Hj; simpl in Hj.
      * injection Hj as <-. apply Qle_refl.
      * injection Hj as <-. apply Qle_refl.
      * destruct j; discriminate.
    + intros j r' Hlt. lia.
  - reflexivity.
  - intros (i & Hi & _ & Hbefore).
    destruct i as [|[|i]]; simpl in Hi.
    + discriminate.
    + assert (Hlt : (rate Samples.tiedControl < rate Samples.tiedVariantA)%Q)
        by (apply (Hbefore 0); [lia | reflexivity]).
      revert Hlt. apply Qlt_irrefl.
    + destruct i; discriminate.
Qed.

End Winner.

(** ** The simulator: the adjusted rate *)

Section AdjustedRate.
Import ABTesting Runs.

Lemma jitter_range (j : Q) :
  (0 <= j)%Q -> (j < 1)%Q -> (- 0.25 <= jitter j /\ jitter j < 0.25)%Q.
Proof. unfold jitter. intros H0 H1. split; lra. Qed.

Lemma clamp_inside (x lo hi : Q) :
  (lo <= x)%Q -> (x <= hi)%Q -> clamp x lo hi = x.
Proof.
  intros Hlo Hhi. unfold clamp.
  apply ltb_ge in Hlo. apply ltb_ge in Hhi. now rewrite Hlo, Hhi.
Qed.

(** Against a draw of [[0,100)] the comparison cannot tell a rate from the
    rate clamped to [[0,100]]. *)
Lemma ltb_clamp (c x : Q) :
  (0 <= c)%Q -> (c < 100)%Q -> JS.ltb c (clamp x 0 100) = JS.ltb c x.
Proof.
  intros H0 H100. unfold clamp.
  destruct (JS.ltb x 0) eqn:Hlow.
  - apply ltb_lt in Hlow.
    transitivity false; [|symmetry]; apply ltb_ge; lra.
  - destruct (JS.ltb 100 x) eqn:Hhigh; [|reflexivity].
    apply ltb_lt in Hhigh.
    transitivity true; [|symmetry]; apply ltb_lt; lra.
Qed.

(** The path of [simulateUser] for a user inside the rollout: four draws, and the
    conversion is decided by comparing the last one with [adjustedRate]. *)
Lemma simulateUser_enrolled (s : State) (w : JS.World) (variant : Variant) :
  let u := JS.rand w (JS.cursor w) in
  let i := JS.rand w (1 + JS.cursor w) in
  let j := JS.rand w (2 + JS.cursor w) in
  let c := JS.rand w (3 + JS.cursor w) in
  (u * 100 < rollout s)%Q ->
  JS.index (variants (selectedExperiment s))
    (JS.Math_floor (i * JS.of_nat (List.length (variants (selectedExperiment s)))))
    = Some variant ->
  simulateUser s w =
    (JS.Ok (mkState (selectedExperiment s) (isSimulating s) (totalUsers s + 1)
              (recordUser variant (JS.ltb (c * 100) (adjustedRate variant j))
                 (results s))
              (rollout s)),
     skip 4 w).
Proof.
  intros u i j c Hin Hidx. subst u i j c.
  unfold simulateUser, JS.bind, JS.Math_random, JS.ret.
  apply ltb_lt in Hin. rewrite Hin.
  cbn -[JS.index JS.Math_floor JS.of_nat Qmult adjustedRate] in Hidx |- *.
  rewrite Hidx. reflexivity.
Qed.

(** The expression of the adjusted rate by itself: the base rate of the
    variant plus the noise [(j - 0.5) * 0.5], which lies in [[-0.25, 0.25)]
    for a draw [j] of [[0,1)].  It is the clamped value when the base rate
    lies in [[0.25, 99.75]], as for all variants of the table, and for every
    conversion draw [c] of [[0,100)] the test [c < adjustedRate] has the value
    it has with the clamped rate. *)
Theorem adjustedRate_is_base_plus_jitter
    (variant : Variant) (j c : Q)
    (Hj : (0 <= j /\ j < 1)%Q) (Hc : (0 <= c /\ c < 100)%Q) :
  adjustedRate variant j = (conversionRate variant + jitter j)%Q /\
  (- 0.25 <= jitter j /\ jitter j < 0.25)%Q /\
  ((0.25 <= conversionRate variant)%Q -> (conversionRate variant <= 99.75)%Q ->
     adjustedRate variant j = clamp (conversionRate variant + jitter j) 0 100) /\
  (forall e v, In e experiments -> In v (variants e) ->
     adjustedRate v j = clamp (conversionRate v + jitter j) 0 100) /\
  JS.ltb c (adjustedRate variant j) =
    JS.ltb c (clamp (conversionRate variant + jitter j) 0 100).
Proof.
  destruct Hj as [Hj0 Hj1]. destruct Hc as [Hc0 Hc1].
  pose proof (jitter_range j Hj0 Hj1) as [Hlo Hhi].
  assert (Hinside : forall v,
             (0.25 <= conversionRate v)%Q -> (conversionRate v <= 99.75)%Q ->
             adjustedRate v j = clamp (conversionRate v + jitter j) 0 100).
  { intros v Hb0 Hb1. symmetry. unfold adjustedRate, jitter in *.
    apply clamp_inside; lra. }
  split; [reflexivity|]. split; [now split|]. split; [apply Hinside|]. split.
  - intros e v He Hv. apply Hinside.
    + destruct He as [<-|[<-|[]]]; simpl in Hv;
        repeat (destruct Hv as [<-|Hv]; [vm_compute; discriminate|]);
        destruct Hv.
    + destruct He as [<-|[<-|[]]]; simpl in Hv;
        repeat (destruct Hv as [<-|Hv]; [vm_compute; discriminate|]);
        destruct Hv.
  - symmetry. now apply ltb_clamp.
Qed.

Lemma adjustedRate_is_base_plus_jitter_witness :
  adjustedRate Samples.hopeless 0 =
    (conversionRate Samples.hopeless + jitter 0)%Q /\
  JS.ltb 0 (adjustedRate Samples.hopeless 0) =
    JS.ltb 0 (clamp (conversionRate Samples.hopeless + jitter 0) 0 100).
Proof.
  assert (Hj : (0 <= 0 /\ 0 < 1)%Q) by (split; vm_compute; [discriminate | reflexivity]).
  assert (Hc : (0 <= 0 /\ 0 < 100)%Q) by (split; vm_compute; [discriminate | reflexivity]).
  destruct (adjustedRate_is_base_plus_jitter Samples.hopeless 0 0 Hj Hc)
    as (Hsum & _ & _ & _ & Hsame).
  exact (conj Hsum Hsame).
Defined.

(** The expression has no clamp of its own.  With base rates that no variant
    of the table has it leaves the range: a base rate of 0 with the draw 0
    gives -0.25, a base rate of 100 with the draw 0.9 gives 100.2. *)
Lemma adjustedRate_leaves_range :
  (adjustedRate Samples.hopeless 0 == - 0.25)%Q /\
  (adjustedRate Samples.hopeless 0 < 0)%Q /\
  ~ (adjustedRate Samples.hopeless 0 ==
     clamp (conversionRate Samples.hopeless + jitter 0) 0 100)%Q /\
  (adjustedRate Samples.certain 0.9 == 100.2)%Q /\
  (100 < adjustedRate Samples.certain 0.9)%Q /\
  ~ (adjustedRate Samples.certain 0.9 ==
     clamp (conversionRate Samples.certain + jitter 0.9) 0 100)%Q.
Proof.
  repeat split; try (vm_compute; discriminate).
Qed.

End AdjustedRate.

(** ** Further checks of the model on the code's own data *)

Section Checks.
Import Environment.

Lemma LogLevel_eqb_sym (a b : LogLevel) :
  LogViewer.LogLevel_eqb a b = LogViewer.LogLevel_eqb b a.
Proof. now destruct a, b. Qed.

Lemma logCounts_from (m : LogLevel) (logs : list LogViewer.LogEntry) :
  forall (acc : LogLevel -> nat) (l : LogLevel),
    fold_left
      (fun acc log =>
         if LogViewer.logLevelPriority m <=? LogViewer.logLevelPriority (LogViewer.level log)
         then fun l => if LogViewer.LogLevel_eqb l (LogViewer.level log)
                       then acc l + 1 else acc l
         else acc)
      logs acc l
    = acc l + List.length (LogViewer.filteredLogs m (LogViewer.only l) logs).
Proof.
  induction logs as [|log logs IH]; intros acc l; simpl; [lia|].
  rewrite IH. unfold LogViewer.passesEnvFilter.
  destruct (_ <=? _); simpl; [|reflexivity].
  rewrite (LogLevel_eqb_sym (LogViewer.level log) l).
  destruct (LogViewer.LogLevel_eqb l (LogViewer.level log)); simpl; lia.
Qed.

(** [logCounts] gives, per level, the number of entries the environment
    filter lets through. *)
Lemma logCounts_filteredLogs (m l : LogLevel) (logs : list LogViewer.LogEntry) :
  LogViewer.logCounts m logs l =
  List.length (LogViewer.filteredLogs m (LogViewer.only l) logs).
Proof. unfold LogViewer.logCounts. now rewrite logCounts_from. Qed.

Example production_shows_errors_only :
  LogViewer.visibleLogs production LogViewer.all Samples.sampleStream =
  [LogViewer.mkLog error "Database connection timeout" "Database"].
Proof. reflexivity. Qed.

Example staging_detected :
  getConfig (mkMeta (Some "staging") "production") = configs staging.
Proof. reflexivity. Qed.

Example ai_suggestions_in_development :
  FeatureFlags.isFeatureEnabled (mkMeta None "development") "ai_suggestions"
    (Samples.constantWorld 0.9) =
  (JS.Ok true, Samples.constantWorld 0.9).
Proof. reflexivity. Qed.

Example beta_api_outside_rollout :
  fst (FeatureFlags.isFeatureEnabled (mkMeta (Some "staging") "development")
         "beta_api_v2" (Samples.constantWorld 0.25)) = JS.Ok false.
Proof. reflexivity. Qed.

Example winner_needs_results :
  ABTesting.getWinningVariant 100 [] =
  JS.Throw (JS.TypeError "Reduce of empty array with no initial value").
Proof. reflexivity. Qed.

Example winner_before_100_users :
  ABTesting.winner Samples.afterOneUser = JS.Ok None.
Proof. reflexivity. Qed.

Example winner_prefers_higher_rate :
  ABTesting.getWinningVariant 100
    [ABTesting.mkResult "control" 60 3 5%Q; ABTesting.mkResult "variant-a" 40 1 2.5%Q]
  = JS.Ok (Some (ABTesting.mkResult "control" 60 3 5%Q)).
Proof. reflexivity. Qed.

Example no_variants_throws :
  fst (ABTesting.simulateUser
         (ABTesting.mkState
            (ABTesting.mkExperiment "empty" "No variants" 100%Q [] ABTesting.draft)
            true 0 [] 100%Q)
         (Samples.constantWorld 0.5))
  = JS.Throw (JS.TypeError "Cannot read properties of undefined").
Proof. reflexivity. Qed.

End Checks.

(** ** The log viewer: tabs, buffer and status bar *)

Section LogTabs.
Import Environment LogViewer LogViewerControls.

Lemma filteredLogs_cons (m : LogLevel) (f : Filter) (log : LogEntry)
    (logs : list LogEntry) :
  filteredLogs m f (log :: logs) =
  if passesEnvFilter m log && passesUserFilter f log
  then log :: filteredLogs m f logs
  else filteredLogs m f logs.
Proof. reflexivity. Qed.

(** Every entry the environment lets through is counted under exactly one
    level: the four level counts add up to the length of the list under the
    filter "all". *)
Lemma logCounts_sum (m : LogLevel) (logs : list LogEntry) :
  logCounts m logs debug + logCounts m logs info
  + logCounts m logs warn + logCounts m logs error
  = List.length (filteredLogs m all logs).
Proof.
  rewrite !logCounts_filteredLogs.
  induction logs as [|log logs IH]; [reflexivity|].
  rewrite !filteredLogs_cons. simpl passesUserFilter.
  destruct (passesEnvFilter m log); simpl andb; [|exact IH].
  destruct (level log); simpl; lia.
Qed.

(** A level below the minimum of the environment has a disabled tab: a click
    on it leaves the filter as it is, its count is 0, and should the filter
    already be that level (chosen under another environment) nothing is
    shown. *)
Theorem disabled_level_shows_nothing
    (m l : LogLevel) (f : Filter) (logs : list LogEntry)
    (Hoff : isDisabled m l = true) :
  clickLevel m l f = f /\
  logCounts m logs l = 0 /\
  filteredLogs m (only l) logs = [].
Proof.
  assert (Hempty : filteredLogs m (only l) logs = []).
  { unfold isDisabled in Hoff. apply Nat.ltb_lt in Hoff.
    induction logs as [|log logs IH]; [reflexivity|].
    rewrite filteredLogs_cons, IH.
    destruct (passesEnvFilter m log) eqn:Henv; [|reflexivity].
    apply passesEnvFilter_spec in Henv.
    simpl. destruct (level log), l; simpl in *; try reflexivity; lia. }
  split; [|split].
  - unfold clickLevel. now rewrite Hoff.
  - now rewrite logCounts_filteredLogs, Hempty.
  - exact Hempty.
Qed.

Lemma disabled_level_shows_nothing_witness :
  clickLevel error debug all = all /\
  logCounts error Samples.sampleStream debug = 0 /\
  filteredLogs error (only debug) Samples.sampleStream = [].
Proof.
  apply (disabled_level_shows_nothing error debug all Samples.sampleStream).
  reflexivity.
Defined.

(** The number on the tab "all" is the length of the list under the filter
    that is chosen.  While the filter is "all" it is the sum of the four level
    counts; while a level is chosen it is that level's count, and so at most
    that sum. *)
Theorem all_tab_count (m : LogLevel) (f : Filter) (logs : list LogEntry) :
  let shown := List.length (filteredLogs m f logs) in
  let sum := logCounts m logs debug + logCounts m logs info
             + logCounts m logs warn + logCounts m logs error in
  shown = match f with
          | all => sum
          | only l => logCounts m logs l
          end /\
  shown <= sum.
Proof.
  intros shown sum. subst shown sum.
  destruct f as [|l].
  - rewrite logCounts_sum. split; [reflexivity | lia].
  - rewrite <- (logCounts_filteredLogs m l logs).
    split; [reflexivity|]. destruct l; lia.
Qed.

(** The level the header names for an environment is the level the filter
    applies there. *)
Theorem getLogLevelLabel_is_threshold
    (env : Environment) (f : Filter) (logs : list LogEntry) :
  fst (getLogLevelLabel env) = logLevel (EnvironmentContext.config env) /\
  visibleLogs env f logs = filteredLogs (fst (getLogLevelLabel env)) f logs /\
  (forall log, In log (visibleLogs env all logs) <->
               In log logs /\
               logLevelPriority (fst (getLogLevelLabel env))
               <= logLevelPriority (level log)).
Proof.
  assert (Hsame : fst (getLogLevelLabel env) = logLevel (EnvironmentContext.config env))
    by now destruct env.
  split; [exact Hsame|]. split.
  - unfold visibleLogs. now rewrite Hsame.
  - intros log. unfold visibleLogs, filteredLogs. rewrite <- Hsame, filter_In.
    simpl. rewrite andb_true_r. unfold passesEnvFilter. now rewrite Nat.leb_le.
Qed.

Lemma filter_split_length {A} (p : A -> bool) (l : list A) :
  List.length l =
  List.length (List.filter p l) + List.length (List.filter (fun x => negb (p x)) l).
Proof.
  induction l as [|x l IH]; simpl; [reflexivity|].
  destruct (p x); simpl; lia.
Qed.

(** The number the status bar gives as filtered by the environment is never
    negative; with the tab "all" it is the number of entries below the minimum
    level, and with a level tab it is at least that number, since it then also
    counts what the tab hides. *)
Theorem hiddenCount_bounds (m : LogLevel) (f : Filter) (logs : list LogEntry) :
  let rejected :=
    Z.of_nat (List.length (List.filter (fun log => negb (passesEnvFilter m log)) logs)) in
  hiddenCount m all logs = rejected /\
  (rejected <= hiddenCount m f logs)%Z /\
  (0 <= hiddenCount m f logs <= Z.of_nat (List.length logs))%Z.
Proof.
  intros rejected. subst rejected. unfold hiddenCount.
  pose proof (filter_split_length (passesEnvFilter m) logs) as Hsplit.
  assert (Hall : filteredLogs m all logs = List.filter (passesEnvFilter m) logs).
  { unfold filteredLogs. apply filter_ext. intros log. simpl. apply andb_true_r. }
  assert (Hle : List.length (filteredLogs m f logs)
                <= List.length (List.filter (passesEnvFilter m) logs)).
  { clear Hsplit Hall. unfold filteredLogs.
    induction logs as [|log logs IH]; simpl; [lia|].
    destruct (passesEnvFilter m log); simpl.
    - destruct (passesUserFilter f log); simpl; lia.
    - exact IH. }
  rewrite Hall. lia.
Qed.

End LogTabs.

Section LogBuffer.
Import LogViewer LogViewerControls.

Lemma slice_last_short {A} (k : nat) (xs : list A) :
  List.length xs <= k -> JSList.slice_last k xs = xs.
Proof.
  intros Hle. unfold JSList.slice_last.
  replace (List.length xs - k) with 0 by lia. reflexivity.
Qed.

Lemma slice_last_length {A} (k : nat) (xs : list A) :
  List.length (JSList.slice_last k xs) = Nat.min (List.length xs) k.
Proof. unfold JSList.slice_last. rewrite length_skipn. lia. Qed.

(** Only the end of a list matters to [slice(-k)]. *)
Lemma slice_last_app_long {A} (k : nat) (pre suf : list A) :
  k <= List.length suf ->
  JSList.slice_last k (pre ++ suf) = JSList.slice_last k suf.
Proof.
  intros Hk. unfold JSList.slice_last.
  rewrite skipn_app, length_app.
  rewrite skipn_all2 by lia. simpl. f_equal. lia.
Qed.

Lemma slice_last_absorb {A} (k : nat) (xs ys : list A) :
  JSList.slice_last k (JSList.slice_last k xs ++ ys) = JSList.slice_last k (xs ++ ys).
Proof.
  destruct (Nat.le_gt_cases (List.length xs) k) as [Hshort|Hlong].
  - now rewrite (slice_last_short k xs Hshort).
  - rewrite <- (firstn_skipn (List.length xs - k) xs) at 2.
    rewrite <- app_assoc.
    rewrite (slice_last_app_long k (firstn (List.length xs - k) xs)
               (skipn (List.length xs - k) xs ++ ys)); [reflexivity|].
    rewrite length_app, length_skipn. lia.
Qed.

Lemma appendLog_slice (x : LogEntry) (prev : list LogEntry) :
  appendLog x prev = JSList.slice_last 51 (prev ++ [x]).
Proof.
  unfold appendLog, JSList.slice_last.
  rewrite skipn_app, length_app. simpl.
  replace (List.length prev + 1 - 51) with (List.length prev - 50) by lia.
  replace (List.length prev - 50 - List.length prev) with 0 by lia.
  reflexivity.
Qed.

Lemma stream_slice (news : list LogEntry) :
  forall start,
    List.length start <= 51 ->
    stream news start = JSList.slice_last 51 (start ++ news).
Proof.
  induction news as [|x news IH]; intros start Hstart.
  - simpl. rewrite app_nil_r. symmetry. now apply slice_last_short.
  - change (stream (x :: news) start) with (stream news (appendLog x start)).
    rewrite IH.
    + rewrite appendLog_slice, slice_last_absorb. now rewrite <- app_assoc.
    + unfold appendLog. rewrite length_app, slice_last_length. simpl. lia.
Qed.

(** The log buffer holds what arrived last, up to 51 entries: one append keeps
    the last 50 entries and adds the new one at the end, so from a buffer of at
    most 51 entries any stream of arrivals leaves the last 51 of all entries,
    in order.  The buffer therefore reaches 51 entries, one more than the 50
    the comment in the code names. *)
Theorem log_buffer_keeps_last_51
    (start news : list LogEntry) (Hstart : List.length start <= 51) :
  stream news start = JSList.slice_last 51 (start ++ news) /\
  List.length (stream news start) = Nat.min (List.length start + List.length news) 51 /\
  (forall x, List.length (appendLog x start) = Nat.min (List.length start) 50 + 1 /\
             last (appendLog x start) x = x).
Proof.
  assert (Hrun : stream news start = JSList.slice_last 51 (start ++ news)).
  { now apply stream_slice. }
  split; [exact Hrun|]. split.
  - rewrite Hrun, slice_last_length, length_app. reflexivity.
  - intros x. unfold appendLog. split.
    + rewrite length_app, slice_last_length. reflexivity.
    + apply last_last.
Qed.

Lemma log_buffer_keeps_last_51_witness :
  List.length (stream (repeat (mkLog Environment.info "tick" "Timer") 60) [])
  = Nat.min (0 + 60) 51.
Proof.
  assert (Hstart : List.length (@nil LogEntry) <= 51) by (simpl; lia).
  destruct (log_buffer_keeps_last_51 []
              (repeat (mkLog Environment.info "tick" "Timer") 60) Hstart)
    as (_ & Hlen & _).
  rewrite Hlen. rewrite repeat_length. reflexivity.
Defined.

End LogBuffer.

(** ** The feature flags: effects, and the panel against the evaluator *)

Section FlagEffects.
Import Environment FeatureFlags.

Lemma lookup_found (registry : list FeatureFlag) (flagId : string) (flag : FeatureFlag) :
  lookup registry flagId = Some flag -> In flag registry /\ id flag = flagId.
Proof.
  unfold lookup. intros Hfind. apply find_some in Hfind as [Hin Heq].
  split; [exact Hin | now apply String.eqb_eq].
Qed.

(** The four ways an evaluation of a flag that the lookup finds can end. *)
Lemma isFeatureEnabledIn_found
    (registry : list FeatureFlag) (env : Environment) (flagId : string)
    (flag : FeatureFlag) (w : JS.World) :
  lookup registry flagId = Some flag ->
  (at_env (enabled flag) env = false /\
   isFeatureEnabledIn registry env flagId w = (JS.Ok false, w)) \/
  (at_env (enabled flag) env = true /\
   ((exists p, rolloutPercentage flag = Some p /\ (p < 100)%Q /\
               isFeatureEnabledIn registry env flagId w =
                 (JS.Ok (JS.ltb (JS.rand w (JS.cursor w) * 100) p), JS.next w)) \/
    (match rolloutPercentage flag with
     | None => True
     | Some p => (100 <= p)%Q
     end /\
     isFeatureEnabledIn registry env flagId w = (JS.Ok true, w)))).
Proof.
  intros Hfind. unfold isFeatureEnabledIn. rewrite Hfind.
  destruct (at_env (enabled flag) env); [right | left; now split].
  split; [reflexivity|]. simpl.
  destruct (rolloutPercentage flag) as [p|]; [|right; now split].
  destruct (JS.ltb p 100) eqn:Hp.
  - left. exists p. apply ltb_lt in Hp. now repeat split.
  - right. apply ltb_ge in Hp. now split.
Qed.

Lemma isFeatureEnabledIn_missing
    (registry : list FeatureFlag) (env : Environment) (flagId : string)
    (w : JS.World) :
  lookup registry flagId = None ->
  isFeatureEnabledIn registry env flagId w =
    (JS.Ok false,
     JS.mkWorld (JS.rand w) (JS.cursor w) (JS.console w ++ [notFound flagId])).
Proof. intros Hfind. unfold isFeatureEnabledIn. now rewrite Hfind. Qed.

(** The evaluator never throws.  It keeps the random source, draws at most one
    value and prints at most one line; it prints exactly when no flag has the
    id, and then it draws nothing.  It answers [true] only for a flag that the
    lookup finds and that is switched on for the environment. *)
Theorem isFeatureEnabled_effects
    (registry : list FeatureFlag) (env : Environment) (flagId : string)
    (w : JS.World) :
  exists b w',
    isFeatureEnabledIn registry env flagId w = (JS.Ok b, w') /\
    JS.rand w' = JS.rand w /\
    (lookup registry flagId = None ->
       b = false /\ JS.cursor w' = JS.cursor w /\
       JS.console w' = JS.console w ++ [notFound flagId]) /\
    (lookup registry flagId <> None ->
       JS.console w' = JS.console w /\
       (JS.cursor w' = JS.cursor w \/ JS.cursor w' = S (JS.cursor w))) /\
    (b = true ->
       exists flag, lookup registry flagId = Some flag /\
                    at_env (enabled flag) env = true).
Proof.
  destruct (lookup registry flagId) as [flag|] eqn:Hfind.
  - destruct (isFeatureEnabledIn_found registry env flagId flag w Hfind)
      as [[Hgate Hrun]|[Hgate [(p & _ & _ & Hrun)|[_ Hrun]]]];
      rewrite Hrun; eexists; eexists; (split; [reflexivity|]);
      (split; [reflexivity|]); (split; [discriminate|]);
      (split; [intros _; simpl; auto|]).
    + discriminate.
    + intros _. now exists flag.
    + intros _. now exists flag.
  - rewrite (isFeatureEnabledIn_missing registry env flagId w Hfind).
    eexists. eexists. split; [reflexivity|]. simpl.
    split; [reflexivity|]. split; [auto|]. split; [congruence | discriminate].
Qed.

Lemma getAllFeatureFlags_entry (meta : ImportMetaEnv) (flag : FeatureFlag) (b : bool) :
  In (flag, b) (getAllFeatureFlags meta) <->
  In flag featureFlags /\ b = at_env (enabled flag) (getCurrentEnvironment meta).
Proof.
  unfold getAllFeatureFlags. rewrite in_map_iff. split.
  - intros (f & [= <- <-] & Hin). now split.
  - intros [Hin ->]. now exists flag.
Qed.

(** The panel lists every flag of the registry once, in the order of the
    registry.  A flag that an evaluation reports as enabled is shown as
    active in the panel: an evaluation narrows what the panel shows and never
    widens it. *)
Theorem isFeatureEnabled_implies_currentlyEnabled
    (meta : ImportMetaEnv) (flagId : string) (w : JS.World)
    (Htrue : fst (isFeatureEnabled meta flagId w) = JS.Ok true) :
  List.map fst (getAllFeatureFlags meta) = featureFlags /\
  exists flag,
    id flag = flagId /\ In (flag, true) (getAllFeatureFlags meta).
Proof.
  split.
  - unfold getAllFeatureFlags. rewrite map_map. apply map_id.
  - unfold isFeatureEnabled in Htrue.
    destruct (lookup featureFlags flagId) as [flag|] eqn:Hfind.
    + exists flag. destruct (lookup_found _ _ _ Hfind) as [Hin Hid].
      split; [exact Hid|]. apply getAllFeatureFlags_entry. split; [exact Hin|].
      destruct (isFeatureEnabledIn_found featureFlags (getCurrentEnvironment meta)
                  flagId flag w Hfind) as [[_ Hrun]|[Hgate _]].
      * rewrite Hrun in Htrue. discriminate.
      * now rewrite Hgate.
    + rewrite (isFeatureEnabledIn_missing _ _ _ w Hfind) in Htrue. discriminate.
Qed.

Lemma isFeatureEnabled_implies_currentlyEnabled_witness :
  exists flag,
    id flag = "export_pdf" /\
    In (flag, true) (getAllFeatureFlags (mkMeta None "production")).
Proof.
  apply (isFeatureEnabled_implies_currentlyEnabled (mkMeta None "production")
           "export_pdf" (Samples.constantWorld 0.5)).
  reflexivity.
Defined.

(** For a flag of the registry without a rollout percentage, or with one of
    at least 100, every evaluation gives what the panel shows, and draws
    nothing; the two can differ only for a partial rollout. *)
Theorem isFeatureEnabled_agrees_with_panel
    (meta : ImportMetaEnv) (flag : FeatureFlag) (b : bool) (w : JS.World)
    (Hrow : In (flag, b) (getAllFeatureFlags meta))
    (Hfull : match rolloutPercentage flag with
             | None => True
             | Some p => (100 <= p)%Q
             end) :
  isFeatureEnabled meta (id flag) w = (JS.Ok b, w).
Proof.
  apply getAllFeatureFlags_entry in Hrow as [Hin ->].
  unfold isFeatureEnabled.
  pose proof (lookup_present featureFlags flag featureFlags_ids_unique Hin) as Hfind.
  destruct (isFeatureEnabledIn_found featureFlags (getCurrentEnvironment meta)
              (id flag) flag w Hfind)
    as [[Hgate Hrun]|[Hgate [(p & Hp & Hlt & _)|[_ Hrun]]]].
  - now rewrite Hgate.
  - exfalso. rewrite Hp in Hfull. exact (Qlt_not_le _ _ Hlt Hfull).
  - now rewrite Hgate.
Qed.

Lemma isFeatureEnabled_agrees_with_panel_witness :
  isFeatureEnabled (mkMeta None "production") "dark_mode_v2"
    (Samples.constantWorld 0.5) =
  (JS.Ok false, Samples.constantWorld 0.5).
Proof.
  apply (isFeatureEnabled_agrees_with_panel (mkMeta None "production")
           Samples.darkMode false (Samples.constantWorld 0.5)).
  - simpl. tauto.
  - simpl. vm_compute. discriminate.
Defined.

(** Which environment is detected: staging only on the explicit variable;
    production on the explicit variable or, unless the variable says staging,
    on a production build; development in every other case, also when the
    variable holds a value the code does not know. *)
Theorem getCurrentEnvironment_cases (meta : ImportMetaEnv) :
  (getCurrentEnvironment meta = staging <-> VITE_APP_ENV meta = Some "staging") /\
  (getCurrentEnvironment meta = production <->
     VITE_APP_ENV meta = Some "production" \/
     (VITE_APP_ENV meta <> Some "staging" /\ MODE meta = "production")) /\
  (getCurrentEnvironment meta = development <->
     VITE_APP_ENV meta <> Some "staging" /\
     VITE_APP_ENV meta <> Some "production" /\
     MODE meta <> "production").
Proof.
  destruct meta as [custom mode]. unfold getCurrentEnvironment, var_is. simpl.
  destruct custom as [v|].
  - destruct (String.eqb_spec v "staging") as [->|Hs];
      [|destruct (String.eqb_spec v "production") as [->|Hp];
        [|destruct (String.eqb_spec mode "production") as [->|Hm]]];
      intuition (try discriminate; try congruence).
  - destruct (String.eqb_spec mode "production") as [->|Hm];
      intuition (try discriminate; try congruence).
Qed.

End FlagEffects.

(** ** The simulator: runs *)

Section SimulatorRuns.
Import ABTesting Runs.

Lemma skip_skip (a b : nat) (w : JS.World) : skip a (skip b w) = skip (a + b) w.
Proof. unfold skip. simpl. f_equal. lia. Qed.

Lemma fair_skip (n : nat) (w : JS.World) : JS.fair w -> JS.fair (skip n w).
Proof. intros Hf k. exact (Hf k). Qed.

Lemma of_nat_le (a b : nat) : a <= b -> (JS.of_nat a <= JS.of_nat b)%Q.
Proof. intros Hle. unfold JS.of_nat. rewrite <- Zle_Qle. lia. Qed.

Lemma of_nat_pos (n : nat) : 0 < n -> (0 < JS.of_nat n)%Q.
Proof.
  intros Hn. unfold JS.of_nat. change 0%Q with (inject_Z 0).
  rewrite <- Zlt_Qlt. lia.
Qed.

(** [Math.floor(draw * n)] is an index of a list of length [n]. *)
Lemma floor_index_in_range (draw : Q) (n : nat) :
  (0 <= draw)%Q -> (draw < 1)%Q -> 0 < n ->
  (0 <= JS.Math_floor (draw * JS.of_nat n) < Z.of_nat n)%Z.
Proof.
  intros H0 H1 Hn. unfold JS.Math_floor.
  pose proof (of_nat_pos n Hn) as Hpos.
  split.
  - change 0%Z with (Qfloor 0). apply Qfloor_resp_le.
    apply Qmult_le_0_compat; [exact H0 | now apply Qlt_le_weak].
  - rewrite Zlt_Qlt.
    apply Qle_lt_trans with (draw * JS.of_nat n)%Q; [apply Qfloor_le|].
    fold (JS.of_nat n).
    setoid_replace (JS.of_nat n) with (1 * JS.of_nat n)%Q at 2 by ring.
    now apply Qmult_lt_compat_r.
Qed.

Lemma index_in_range {A} (xs : list A) (i : Z) :
  (0 <= i < Z.of_nat (List.length xs))%Z ->
  exists x, JS.index xs i = Some x.
Proof.
  intros [Hlo Hhi]. unfold JS.index.
  destruct (Z.ltb_spec i 0) as [Hneg|_]; [lia|].
  destruct (nth_error xs (Z.to_nat i)) as [x|] eqn:Hnth; [now exists x|].
  apply nth_error_None in Hnth. lia.
Qed.

(** What [simulateUser] can return, with the world it leaves. *)
Lemma simulateUser_steps (s s' : State) (w w' : JS.World) :
  simulateUser s w = (JS.Ok s', w') ->
  (s' = s /\ w' = JS.next w) \/
  exists variant converted,
    In variant (variants (selectedExperiment s)) /\
    s' = mkState (selectedExperiment s) (isSimulating s) (totalUsers s + 1)
           (recordUser variant converted (results s)) (rollout s) /\
    w' = skip 4 w.
Proof.
  unfold simulateUser, JS.bind, JS.Math_random, JS.ret, JS.throw.
  destruct (JS.ltb (JS.rand w (JS.cursor w) * 100) (rollout s)); simpl.
  - destruct (JS.index _ _) as [variant|] eqn:Hidx; [|discriminate].
    intros [= <- <-]. right. exists variant. eexists.
    split; [|split; reflexivity].
    unfold JS.index in Hidx. destruct (_ <? 0)%Z; [discriminate|].
    exact (nth_error_In _ _ Hidx).
  - intros [= <- <-]. now left.
Qed.

(** A batch changes neither the experiment, the rollout, the running flag nor
    the order of the results; it leaves the console and the random source
    alone; each user takes one to four draws and adds at most one to the
    total. *)
Theorem simulateUsers_frame (n : nat) (s s' : State) (w w' : JS.World)
    (Hrun : simulateUsers n s w = (JS.Ok s', w')) :
  selectedExperiment s' = selectedExperiment s /\
  rollout s' = rollout s /\
  isSimulating s' = isSimulating s /\
  List.map variantId (results s') = List.map variantId (results s) /\
  totalUsers s <= totalUsers s' <= totalUsers s + n /\
  JS.rand w' = JS.rand w /\
  JS.console w' = JS.console w /\
  JS.cursor w + n <= JS.cursor w' <= JS.cursor w + 4 * n.
Proof.
  revert s w Hrun. induction n as [|n IH]; intros s w Hrun.
  - injection Hrun as <- <-. repeat split; lia.
  - simpl in Hrun. unfold JS.bind in Hrun.
    destruct (simulateUser s w) as [[s1|e] w1] eqn:Hstep; [|discriminate].
    apply IH in Hrun as (He & Hr & Hi & Hids & Ht & Hrand & Hcons & Hcur).
    apply simulateUser_steps in Hstep
      as [[-> ->]|(v & c & _ & -> & ->)]; simpl in *.
    + repeat split; try assumption; lia.
    + rewrite recordUser_ids in Hids. repeat split; try assumption; lia.
Qed.

Lemma simulateUsers_frame_witness :
  totalUsers mounted <= totalUsers Samples.afterOneUser <= totalUsers mounted + 1.
Proof.
  assert (Hrun : simulateUsers 1 mounted Samples.scriptedWorld =
                 (JS.Ok Samples.afterOneUser, skip 4 Samples.scriptedWorld))
    by (vm_compute; reflexivity).
  exact (proj1 (proj2 (proj2 (proj2 (proj2
           (simulateUsers_frame 1 _ _ _ _ Hrun)))))).
Defined.

(** Resetting after a batch gives the state that resetting before it gives:
    nothing of a run survives a reset. *)
Theorem reset_forgets_run (n : nat) (s s' : State) (w w' : JS.World)
    (Hrun : simulateUsers n s w = (JS.Ok s', w')) :
  resetSimulation s' = resetSimulation s.
Proof.
  revert s w Hrun. induction n as [|n IH]; intros s w Hrun.
  - now injection Hrun as <- <-.
  - simpl in Hrun. unfold JS.bind in Hrun.
    destruct (simulateUser s w) as [[s1|e] w1] eqn:Hstep; [|discriminate].
    rewrite (IH s1 w1 Hrun).
    apply simulateUser_steps in Hstep as [[-> _]|(v & c & _ & -> & _)];
      reflexivity.
Qed.

Lemma reset_forgets_run_witness :
  resetSimulation Samples.afterOneUser = resetSimulation mounted.
Proof.
  apply (reset_forgets_run 1 mounted Samples.afterOneUser
           Samples.scriptedWorld (skip 4 Samples.scriptedWorld)).
  vm_compute. reflexivity.
Defined.

(** With a random source in [[0,1)] and an experiment that has a variant, the
    drawn index is in range and [simulateUser] returns a state: it never meets
    an undefined variant. *)
Theorem simulateUser_never_throws (s : State) (w : JS.World)
    (Hfair : JS.fair w)
    (Hvariants : variants (selectedExperiment s) <> []) :
  exists s' w', simulateUser s w = (JS.Ok s', w') /\ JS.fair w'.
Proof.
  destruct (JS.ltb (JS.rand w (JS.cursor w) * 100) (rollout s)) eqn:Hin.
  - apply ltb_lt in Hin.
    assert (Hlen : 0 < List.length (variants (selectedExperiment s))).
    { destruct (variants (selectedExperiment s)); [contradiction | simpl; lia]. }
    destruct (Hfair (1 + JS.cursor w)) as [Hd0 Hd1].
    destruct (index_in_range _ _ (floor_index_in_range _ _ Hd0 Hd1 Hlen))
      as [variant Hidx].
    eexists. eexists. split.
    + exact (simulateUser_enrolled s w variant Hin Hidx).
    + now apply fair_skip.
  - apply ltb_ge in Hin. exists s, (JS.next w). split.
    + now apply simulateUser_rejected.
    + now apply fair_next.
Qed.

Lemma simulateUser_never_throws_witness :
  exists s' w',
    simulateUser mounted (Samples.constantWorld 0.3) = (JS.Ok s', w') /\
    JS.fair w'.
Proof.
  apply simulateUser_never_throws.
  - apply constantWorld_fair; vm_compute; [discriminate | reflexivity].
  - discriminate.
Defined.

(** With a rollout of 100 or more every simulated user is enrolled: a batch of
    [n] users adds [n] to the total and uses [4 * n] draws. *)
Theorem full_rollout_enrolls_everyone (n : nat) (s : State) (w : JS.World)
    (Hfull : (100 <= rollout s)%Q)
    (Hfair : JS.fair w)
    (Hvariants : variants (selectedExperiment s) <> []) :
  exists s',
    simulateUsers n s w = (JS.Ok s', skip (4 * n) w) /\
    totalUsers s' = totalUsers s + n.
Proof.
  revert s w Hfull Hfair Hvariants.
  induction n as [|n IH]; intros s w Hfull Hfair Hvariants.
  - exists s. split; [|lia]. destruct w. reflexivity.
  - assert (Hin : (JS.rand w (JS.cursor w) * 100 < rollout s)%Q).
    { destruct (percent_range w (JS.cursor w) Hfair). lra. }
    assert (Hlen : 0 < List.length (variants (selectedExperiment s))).
    { destruct (variants (selectedExperiment s)); [contradiction | simpl; lia]. }
    destruct (Hfair (1 + JS.cursor w)) as [Hd0 Hd1].
    destruct (index_in_range _ _ (floor_index_in_range _ _ Hd0 Hd1 Hlen))
      as [variant Hidx].
    pose proof (simulateUser_enrolled s w variant Hin Hidx) as Hstep.
    cbv zeta in Hstep.
    match type of Hstep with
    | _ = (JS.Ok ?st, _) => set (s1 := st) in Hstep
    end.
    destruct (IH s1 (skip 4 w) Hfull (fair_skip 4 w Hfair) Hvariants)
      as (s' & Hrest & Htotal).
    exists s'. split.
    + simpl simulateUsers. unfold JS.bind. rewrite Hstep, Hrest.
      rewrite skip_skip. do 2 f_equal. lia.
    + rewrite Htotal. simpl. lia.
Qed.

Lemma full_rollout_enrolls_everyone_witness :
  exists s',
    simulateUsers 3 (setRollout 100 mounted) (Samples.constantWorld 0.3) =
      (JS.Ok s', skip (4 * 3) (Samples.constantWorld 0.3)) /\
    totalUsers s' = totalUsers (setRollout 100 mounted) + 3.
Proof.
  apply full_rollout_enrolls_everyone.
  - vm_compute. discriminate.
  - apply constantWorld_fair; vm_compute; [discriminate | reflexivity].
  - discriminate.
Defined.

End SimulatorRuns.

(** ** The simulator: the rate behind a conversion *)

Section ConversionRate.
Import ABTesting Runs.





End ConversionRate.

(** ** The simulator: what the component shows *)

Section SimulatorReadouts.
Import ABTesting Runs ABStats.

Lemma reachable_has_results (s : State) :
  reachable s -> results s <> [] /\ variants (selectedExperiment s) <> [].
Proof.
  intros Hreach.
  destruct (reachable_facts s Hreach) as (_ & [Hids _] & Hsel).
  assert (Hvs : variants (selectedExperiment s) <> []).
  { destruct Hsel as [<-|[<-|[]]]; discriminate. }
  split; [|exact Hvs].
  intros Hnil. rewrite Hnil in Hids. simpl in Hids.
  destruct (variants (selectedExperiment s)); [now apply Hvs | discriminate].
Qed.

Lemma ratio_bounds (c u : nat) :
  c <= u -> 0 < u -> (0 <= JS.of_nat c / JS.of_nat u /\ JS.of_nat c / JS.of_nat u <= 1)%Q.
Proof.
  intros Hle Hu. pose proof (of_nat_pos u Hu) as Hpos.
  pose proof (of_nat_le 0 c (Nat.le_0_l c)) as Hc0.
  pose proof (of_nat_le c u Hle) as Hcu.
  change (JS.of_nat 0) with 0%Q in Hc0.
  split.
  - apply Qle_shift_div_l; [exact Hpos|]. now rewrite Qmult_0_l.
  - apply Qle_shift_div_r; [exact Hpos|]. now rewrite Qmult_1_l.
Qed.

(** Rounding keeps a rate between 0 and 100: both ends are doubles. *)
Lemma storedRate_bounds (c u : nat) :
  c <= u -> (0 <= storedRate c u /\ storedRate c u <= 100)%Q.
Proof.
  intros Hle. unfold storedRate.
  destruct (Nat.eqb_spec u 0) as [_|Hne].
  - split; [apply Qle_refl | discriminate].
  - destruct (ratio_bounds c u Hle) as [H0 H1]; [lia|].
    destruct (double_within (JS.of_nat c / JS.of_nat u) 1 H0 H1) as [Hq0 Hq1];
      [reflexivity|].
    set (q := JS.double (JS.of_nat c / JS.of_nat u)) in *.
    apply double_within; [lra | lra | reflexivity].
Qed.

(** In every reachable state each stored rate is a percentage: it lies
    between 0 and 100. *)
Theorem reachable_rates_are_percentages (s : State) (r : ExperimentResult)
    (Hreach : reachable s) (Hrow : In r (results s)) :
  (0 <= rate r /\ rate r <= 100)%Q.
Proof.
  destruct (reachable_facts s Hreach) as ([_ Hall] & _ & _).
  rewrite Forall_forall in Hall. destruct (Hall r Hrow) as [Hle Hrate].
  rewrite Hrate. now apply storedRate_bounds.
Qed.

Lemma afterOneUser_reachable : reachable Samples.afterOneUser.
Proof.
  exact (reach_simulate mounted Samples.scriptedWorld _ _
           reach_mounted afterOneUser_simulated).
Qed.

Lemma reachable_rates_are_percentages_witness :
  (0 <= 100 /\ 100 <= 100)%Q.
Proof.
  apply (reachable_rates_are_percentages Samples.afterOneUser
           (mkResult "variant-a" 1 1 100%Q) afterOneUser_reachable).
  simpl. tauto.
Defined.

Lemma totalConversions_sum (rs : list ExperimentResult) :
  totalConversions rs = list_sum (List.map conversions rs).
Proof.
  unfold totalConversions.
  assert (Hgen : forall acc,
             fold_left (fun a b => a + conversions b) rs acc
             = acc + list_sum (List.map conversions rs)).
  { induction rs as [|r rs IH]; intros acc; simpl; [lia|]. rewrite IH. lia. }
  apply (Hgen 0).
Qed.

(** In every reachable state the conversions shown in total do not exceed the
    users in the test, and the average rate lies between 0 and 100. *)
Theorem reachable_average_rate (s : State) (Hreach : reachable s) :
  totalConversions (results s) <= totalUsers s /\
  (0 <= averageRate s /\ averageRate s <= 100)%Q.
Proof.
  destruct (reachable_facts s Hreach) as ([Htot Hall] & _ & _).
  assert (Hle : totalConversions (results s) <= totalUsers s).
  { rewrite totalConversions_sum, Htot. clear Htot.
    induction Hall as [|r rs [Hr _] _ IH]; simpl; lia. }
  split; [exact Hle|]. unfold averageRate.
  destruct (Nat.ltb_spec 0 (totalUsers s)) as [Hpos|_].
  - destruct (ratio_bounds _ _ Hle Hpos) as [H0 H1].
    set (q := (JS.of_nat (totalConversions (results s)) / JS.of_nat (totalUsers s))%Q) in *.
    split; lra.
  - split; [apply Qle_refl | discriminate].
Qed.

Lemma reachable_average_rate_witness :
  totalConversions (results Samples.afterOneUser) <= totalUsers Samples.afterOneUser.
Proof.
  exact (proj1 (reachable_average_rate Samples.afterOneUser afterOneUser_reachable)).
Defined.

(** The bar of a row is never wider than the box: the divisor is at least 1
    and at least the users of every row, so the width lies between 0 and 100
    percent. *)
Theorem barWidth_in_range (rs : list ExperimentResult) (r : ExperimentResult)
    (Hrow : In r rs) :
  1 <= maxUsers rs /\ users r <= maxUsers rs /\
  (0 <= barWidth rs r /\ barWidth rs r <= 100)%Q.
Proof.
  assert (Hmax : Forall (fun k => k <= maxUsers rs) (List.map users rs ++ [1]))
    by (apply list_max_le; reflexivity).
  rewrite Forall_app in Hmax. destruct Hmax as [Hall Hone].
  assert (H1 : 1 <= maxUsers rs) by now inversion Hone.
  assert (Hr : users r <= maxUsers rs).
  { rewrite Forall_forall in Hall. apply Hall. now apply in_map. }
  split; [exact H1|]. split; [exact Hr|].
  unfold barWidth. destruct (ratio_bounds _ _ Hr H1) as [Hq0 Hq1].
  set (q := (JS.of_nat (users r) / JS.of_nat (maxUsers rs))%Q) in *.
  split; lra.
Qed.

Lemma barWidth_in_range_witness :
  1 <= maxUsers (results mounted) /\
  users (mkResult "control" 0 0 0%Q) <= maxUsers (results mounted) /\
  (0 <= barWidth (results mounted) (mkResult "control" 0 0 0%Q) /\
   barWidth (results mounted) (mkResult "control" 0 0 0%Q) <= 100)%Q.
Proof.
  apply barWidth_in_range. simpl. tauto.
Defined.

End SimulatorReadouts.

Section SimulatorWinner.
Import ABTesting Runs ABStats.

Lemma lastGreatest_member (rs : list ExperimentResult) (r : ExperimentResult) :
  lastGreatest rs r ->
  In r rs /\ (forall r', In r' rs -> (rate r' <= rate r)%Q).
Proof.
  intros (i & Hi & Hall & _). split.
  - exact (nth_error_In _ _ Hi).
  - intros r' Hin. apply In_nth_error in Hin as [j Hj]. exact (Hall j r' Hj).
Qed.

(** What a winner that is not [null] tells about the state. *)
Lemma getWinningVariant_some (total : nat) (rs : list ExperimentResult)
    (r : ExperimentResult) :
  getWinningVariant total rs = JS.Ok (Some r) ->
  100 <= total /\ lastGreatest rs r.
Proof.
  unfold getWinningVariant.
  destruct (Nat.ltb_spec total 100) as [_|Hge]; [discriminate|].
  destruct rs as [|x rest]; simpl; [discriminate|].
  intros [= <-]. split; [exact Hge | apply fold_higherRate_lastGreatest].
Qed.



Lemma rowVariant_found (s : State) (r : ExperimentResult) :
  resultsFollowVariants s -> In r (results s) ->
  exists v, rowVariant s r = Some v /\ id v = variantId r /\
            In v (variants (selectedExperiment s)).
Proof.
  intros [Hids _] Hin. unfold rowVariant.
  assert (Hid : In (variantId r) (List.map id (variants (selectedExperiment s))))
    by (rewrite <- Hids; now apply in_map).
  apply in_map_iff in Hid as (v0 & Hv0 & Hin0).
  destruct (List.find _ _) as [v|] eqn:Hfind.
  - apply find_some in Hfind as [Hv Heq]. exists v.
    split; [reflexivity|]. split; [now apply String.eqb_eq | exact Hv].
  - exfalso. pose proof (find_none _ _ Hfind v0 Hin0) as Hno.
    simpl in Hno. rewrite Hv0, String.eqb_refl in Hno. discriminate.
Qed.

(** What every render has: results with distinct ids, and results at all as
    soon as a user was counted. *)
Lemma rendered_results (s : State) :
  rendered s ->
  NoDup (List.map variantId (results s)) /\
  (results s = [] -> totalUsers s = 0).
Proof.
  assert (Hsettled : forall t, reachable t ->
            NoDup (List.map variantId (results t)) /\
            (results t = [] -> totalUsers t = 0)).
  { intros t Hreach.
    destruct (reachable_facts t Hreach) as (_ & [Hids Hnd] & _).
    destruct (reachable_has_results t Hreach) as [Hne _].
    split; [now rewrite Hids | contradiction]. }
  intros [|t Hreach|exp t Hexp Hreach].
  - split; [constructor | reflexivity].
  - now apply Hsettled.
  - destruct (clickExperiment_keeps exp t) as [Ht Hr]. rewrite Ht, Hr.
    now apply Hsettled.
Qed.

Lemma afterHundredUsers_simulated :
  simulateUsers 100 (selectExperiment pricingDisplay mounted)
    Samples.thirdVariantWorld =
  (JS.Ok Samples.afterHundredUsers, skip 400 Samples.thirdVariantWorld).
Proof. vm_compute. reflexivity. Qed.

Lemma afterHundredUsers_reachable : reachable Samples.afterHundredUsers.
Proof.
  apply (reachable_batch 100 (selectExperiment pricingDisplay mounted)
           Samples.thirdVariantWorld Samples.afterHundredUsers
           (skip 400 Samples.thirdVariantWorld));
    [|exact afterHundredUsers_simulated].
  apply reach_select; [simpl; tauto | apply reach_mounted].
Qed.

Lemma betweenClickAndEffect_rendered : rendered Samples.betweenClickAndEffect.
Proof.
  exact (render_clicked checkoutButton Samples.afterHundredUsers
           (or_introl eq_refl) afterHundredUsers_reachable).
Qed.

(** The render between the click on the first experiment and the effect: the
    results are still those of the second experiment, the winner is its third
    variant, and the first experiment has no variant of that id, so the row is
    skipped and the winner has no name to show. *)
Lemma winner_without_variant :
  rendered Samples.betweenClickAndEffect /\
  ~ reachable Samples.betweenClickAndEffect /\
  winner Samples.betweenClickAndEffect = JS.Ok (Some Samples.thirdVariantWins) /\
  rowVariant Samples.betweenClickAndEffect Samples.thirdVariantWins = None /\
  List.map (rowVariant Samples.betweenClickAndEffect)
    (results Samples.betweenClickAndEffect)
  = [ Some (mkVariant "control" "Control (Verde)" 3.2%Q);
      Some (mkVariant "variant-a" "Variant A (Blu)" 3.8%Q);
      None ].
Proof.
  split; [exact betweenClickAndEffect_rendered|].
  split; [|now repeat split].
  intros Hreach. destruct (reachable_facts _ Hreach) as (_ & [Hids _] & _).
  discriminate Hids.
Qed.

(** In every render the winner can be computed: the reduction never meets an
    empty list.  The winner is [null] exactly below 100 users; from 100 users
    on it is one of the results and no result has a higher rate.  Between two
    events it belongs to a variant of the selected experiment, so that its
    name can be shown; in the render between a click on another experiment and
    the effect it need not ([winner_without_variant]). *)
Theorem rendered_winner_defined (s : State) (Hrender : rendered s) :
  (winner s = JS.Ok None <-> totalUsers s < 100) /\
  (100 <= totalUsers s ->
     exists r,
       winner s = JS.Ok (Some r) /\
       In r (results s) /\
       (forall r', In r' (results s) -> (rate r' <= rate r)%Q)) /\
  (reachable s ->
     forall r, winner s = JS.Ok (Some r) ->
       exists v, rowVariant s r = Some v /\ id v = variantId r).
Proof.
  destruct (rendered_results s Hrender) as [_ Hempty].
  unfold winner. split; [|split].
  - unfold getWinningVariant.
    destruct (Nat.ltb_spec (totalUsers s) 100) as [Hlt|Hge]; [now split|].
    split; [|lia]. destruct (results s); simpl; discriminate.
  - intros Hge. destruct (results s) as [|x rest] eqn:Hres.
    + specialize (Hempty eq_refl). lia.
    + pose proof (fold_higherRate_lastGreatest rest x) as Hlast.
      destruct (lastGreatest_member _ _ Hlast) as [Hin Hmax].
      exists (fold_left higherRate rest x).
      split; [now apply getWinningVariant_enough|]. now split.
  - intros Hreach r Hw.
    destruct (reachable_facts s Hreach) as (_ & Hfollow & _).
    apply getWinningVariant_some in Hw as [_ Hlast].
    destruct (lastGreatest_member _ _ Hlast) as [Hin _].
    destruct (rowVariant_found s r Hfollow Hin) as (v & Hrow & Hid & _).
    now exists v.
Qed.

Lemma rendered_winner_defined_witness :
  exists r,
    winner Samples.betweenClickAndEffect = JS.Ok (Some r) /\
    In r (results Samples.betweenClickAndEffect) /\
    (forall r', In r' (results Samples.betweenClickAndEffect) ->
                (rate r' <= rate r)%Q).
Proof.
  apply (proj1 (proj2 (rendered_winner_defined Samples.betweenClickAndEffect
                         betweenClickAndEffect_rendered))).
  simpl. lia.
Defined.



End SimulatorWinner.

(** ** The log viewer: the count on a level tab *)

Section LogTabCount.
Import Environment LogViewer LogViewerControls.

(** The count on a level tab is the number of entries the list shows once
    that tab is chosen; for an enabled level it is the number of entries of
    that level in the buffer. *)
Theorem level_tab_count (m l : LogLevel) (logs : list LogEntry) :
  logCounts m logs l = List.length (filteredLogs m (only l) logs) /\
  (isDisabled m l = false ->
     logCounts m logs l =
     List.length (List.filter (fun log => LogLevel_eqb (level log) l) logs)).
Proof.
  assert (Hcount : logCounts m logs l = List.length (filteredLogs m (only l) logs)).
  { unfold logCounts. now rewrite logCounts_from. }
  split; [exact Hcount|].
  intros Hon. rewrite Hcount. f_equal. unfold filteredLogs.
  apply filter_ext. intros log. simpl.
  destruct (LogLevel_eqb (level log) l) eqn:Hl; [|apply andb_false_r].
  rewrite andb_true_r. unfold isDisabled in Hon. apply Nat.ltb_ge in Hon.
  unfold passesEnvFilter. apply Nat.leb_le.
  destruct (level log), l; simpl in *; try discriminate; lia.
Qed.

End LogTabCount.

(** ** The environment provider and its buttons *)

Section Provider.
Import Environment EnvironmentProvider.

Lemma Environment_eqb_eq (a b : Environment) :
  Environment_eqb a b = true <-> a = b.
Proof. destruct a, b; simpl; split; congruence. Qed.

(** From the provider's first state, through any clicks and timers: as long
    as [isSimulated] is false no timer has fired and the environment is
    development; the configuration is the one named after the environment;
    and the loading indicator is on only while a timer is pending. *)
Theorem provider_invariants (s : State) (Hreach : reachable s) :
  (isSimulated s = false -> currentEnvironment s = development) /\
  name (config s) = currentEnvironment s /\
  (isTransitioning s = true -> timers s <> []).
Proof.
  split; [|split].
  - induction Hreach as [|env s Hreach IH|s Hreach IH].
    + reflexivity.
    + unfold handleEnvironmentChange.
      destruct (Environment_eqb env (currentEnvironment s)); exact IH.
    + unfold fire. destruct (timers s); [exact IH | discriminate].
  - unfold config. now destruct (currentEnvironment s).
  - induction Hreach as [|env s Hreach IH|s Hreach IH].
    + discriminate.
    + unfold handleEnvironmentChange.
      destruct (Environment_eqb env (currentEnvironment s)); [exact IH|].
      intros _. simpl. now destruct (timers s).
    + unfold fire. destruct (timers s) eqn:Ht; [rewrite Ht; exact IH | discriminate].
Qed.

Lemma provider_invariants_witness :
  name (config (fire (handleEnvironmentChange staging initialState))) = staging.
Proof.
  exact (proj1 (proj2 (provider_invariants _
           (reach_fire _ (reach_click staging _ reach_initial))))).
Defined.

Lemma fire_keeps_simulated (n : nat) (s : State) :
  isSimulated s = true -> isSimulated (Nat.iter n fire s) = true.
Proof.
  intros Hs. induction n as [|n IH]; [exact Hs|].
  simpl. unfold fire. now destruct (timers _).
Qed.

Lemma last_nonempty {A} (l : list A) (a d d' : A) :
  last (a :: l) d = last (a :: l) d'.
Proof.
  revert a. induction l as [|b l IH]; intros a; [reflexivity|].
  change (last (b :: l) d = last (b :: l) d'). apply IH.
Qed.

Lemma fire_all (pending : list Environment) :
  forall s, timers s = pending ->
    currentEnvironment (Nat.iter (List.length pending) fire s)
      = last pending (currentEnvironment s) /\
    timers (Nat.iter (List.length pending) fire s) = [] /\
    (pending <> [] ->
       isSimulated (Nat.iter (List.length pending) fire s) = true).
Proof.
  induction pending as [|env rest IH]; intros s Ht.
  - now repeat split.
  - simpl List.length. rewrite Nat.iter_succ_r.
    assert (Hstep : timers (fire s) = rest /\ currentEnvironment (fire s) = env /\
                    isSimulated (fire s) = true)
      by (unfold fire; rewrite Ht; now repeat split).
    destruct Hstep as (Hrest & Hcur & Hsim).
    destruct (IH (fire s) Hrest) as (Hlast & Hnone & _).
    split; [|split; [exact Hnone|]].
    + rewrite Hlast, Hcur. destruct rest as [|e rest]; [reflexivity|].
      change (last (e :: rest) env = last (e :: rest) (currentEnvironment s)).
      apply last_nonempty.
    + intros _. now apply fire_keeps_simulated.
Qed.

(** A click on the current environment changes nothing.  Any other click
    starts a timer, and timers fire in the order of the clicks: once all have
    fired, the environment is the one of the last click that started a timer
    and the simulated flag is set. *)
Theorem last_click_wins (env : Environment) (s : State) :
  let s' := handleEnvironmentChange env s in
  let settled := Nat.iter (List.length (timers s')) fire s' in
  (env = currentEnvironment s -> s' = s) /\
  (env <> currentEnvironment s ->
     timers s' = timers s ++ [env] /\
     currentEnvironment settled = env /\
     timers settled = [] /\
     isSimulated settled = true).
Proof.
  intros s' settled. split.
  - intros ->. subst s'. unfold handleEnvironmentChange.
    now rewrite (proj2 (Environment_eqb_eq _ _) eq_refl).
  - intros Hne.
    assert (Ht : timers s' = timers s ++ [env]).
    { subst s'. unfold handleEnvironmentChange.
      destruct (Environment_eqb env (currentEnvironment s)) eqn:E; [|reflexivity].
      apply Environment_eqb_eq in E. contradiction. }
    destruct (fire_all (timers s') s' eq_refl) as (Hcur & Hnone & Hsim).
    fold settled in Hcur, Hnone, Hsim.
    split; [exact Ht|]. split; [|split; [exact Hnone|]].
    + rewrite Hcur, Ht. apply last_last.
    + apply Hsim. rewrite Ht. now destruct (timers s).
Qed.

Lemma last_click_wins_witness :
  currentEnvironment
    (Nat.iter 2 fire
       (handleEnvironmentChange production
          (handleEnvironmentChange staging initialState))) = production.
Proof.
  refine (proj1 (proj2 (proj2 (last_click_wins production
            (handleEnvironmentChange staging initialState)) _))).
  discriminate.
Defined.

End Provider.

(** ** The pipeline animation *)

Section Pipeline.
Import CICD.

Lemma pipeline_shape (s : State) :
  reachable s ->
  activeStage s < List.length stages /\
  completedStages s = seq 0 (activeStage s).
Proof.
  intros Hreach. induction Hreach as [|s Hreach [Hlt Hdone] _|s Hreach IH].
  - split; [simpl; lia | reflexivity].
  - unfold tick. simpl activeStage. simpl completedStages. rewrite Hdone.
    simpl List.length in *.
    destruct (activeStage s) as [|[|[|[|[|[|a]]]]]]; try lia;
      (split; [simpl; lia | reflexivity]).
  - exact IH.
Qed.

(** While the animation runs, the completed stages are exactly the stages
    before the active one, in order; the active stage is a stage of the
    pipeline and is never marked complete, so the last stage never shows as
    complete and the progress bar, which stands half a stage past the
    completed ones, stays below 100 percent. *)
Theorem pipeline_completed_before_active (s : State) (Hreach : reachable s) :
  activeStage s < List.length stages /\
  completedStages s = seq 0 (activeStage s) /\
  (forall index, isCompleted s index = true <-> index < activeStage s) /\
  isCompleted s (List.length stages - 1) = false /\
  (progress s == (JS.of_nat (activeStage s) + 0.5) / 6 * 100)%Q /\
  (0 < progress s /\ progress s < 100)%Q.
Proof.
  destruct (pipeline_shape s Hreach) as [Hlt Hdone].
  assert (Hmark : forall index, isCompleted s index = true <-> index < activeStage s).
  { intros index. unfold isCompleted. rewrite Hdone, existsb_exists. split.
    - intros (k & Hk & Heq). apply in_seq in Hk. apply Nat.eqb_eq in Heq. lia.
    - intros Hi. exists index. split; [apply in_seq; lia | apply Nat.eqb_refl]. }
  split; [exact Hlt|]. split; [exact Hdone|]. split; [exact Hmark|].
  split.
  - destruct (isCompleted s (List.length stages - 1)) eqn:E; [|reflexivity].
    apply Hmark in E. lia.
  - unfold progress. rewrite Hdone, length_seq, Nat.eqb_refl.
    simpl List.length in *.
    destruct (activeStage s) as [|[|[|[|[|[|a]]]]]]; try lia;
      (split; [reflexivity | split; reflexivity]).
Qed.

Lemma pipeline_completed_before_active_witness :
  completedStages (tick (tick initialState)) = seq 0 2.
Proof.
  refine (proj1 (proj2 (pipeline_completed_before_active _ _))).
  apply reach_tick; [apply reach_tick; [apply reach_initial|] |]; reflexivity.
Defined.

(** The animation is periodic: six ticks bring every reachable state back to
    itself. *)
Theorem pipeline_period (s : State) (Hreach : reachable s) :
  Nat.iter (List.length stages) tick s = s.
Proof.
  destruct (pipeline_shape s Hreach) as [Hlt Hdone].
  destruct s as [a r done]. simpl in *. subst done.
  destruct a as [|[|[|[|[|[|a]]]]]]; try lia; reflexivity.
Qed.

Lemma pipeline_period_witness :
  Nat.iter (List.length stages) tick (tick initialState) = tick initialState.
Proof.
  apply pipeline_period. apply reach_tick; [apply reach_initial | reflexivity].
Defined.

End Pipeline.

(** ** The secrets panel *)

Section Secrets.
Import SecretsManager.

Lemma bullets_length : List.length bullets = 8.
Proof. reflexivity. Qed.

(** A masked value shows at most the first four and the last four code units:
    a value of up to 8 units is replaced by the eight bullets, so that not
    even its length shows; a longer one gives 16 units, its middle is replaced
    by the bullets, and two values with the same ends have the same mask. *)
Theorem maskValue_hides (value other : list codeUnit) :
  List.length (maskValue value) = (if List.length value <=? 8 then 8 else 16) /\
  (List.length value <= 8 -> maskValue value = bullets) /\
  (8 < List.length value ->
     exists middle,
       value = JSList.slice_first 4 value ++ middle ++ JSList.slice_last 4 value /\
       0 < List.length middle /\
       maskValue value =
         JSList.slice_first 4 value ++ bullets ++ JSList.slice_last 4 value) /\
  (8 < List.length value -> 8 < List.length other ->
     JSList.slice_first 4 other = JSList.slice_first 4 value ->
     JSList.slice_last 4 other = JSList.slice_last 4 value ->
     maskValue other = maskValue value).
Proof.
  unfold maskValue. split; [|split; [|split]].
  - destruct (Nat.leb_spec (List.length value) 8) as [_|Hlong]; [reflexivity|].
    rewrite !length_app, bullets_length.
    unfold JSList.slice_first, JSList.slice_last.
    rewrite length_firstn, length_skipn. lia.
  - intros Hshort. apply Nat.leb_le in Hshort. now rewrite Hshort.
  - intros Hlong.
    exists (firstn (List.length value - 8) (skipn 4 value)).
    assert (Hcut : JSList.slice_last 4 value
                   = skipn (List.length value - 8) (skipn 4 value)).
    { unfold JSList.slice_last. rewrite skipn_skipn. f_equal. lia. }
    split; [|split].
    + rewrite Hcut, firstn_skipn. unfold JSList.slice_first.
      now rewrite firstn_skipn.
    + rewrite length_firstn, length_skipn. lia.
    + destruct (Nat.leb_spec (List.length value) 8) as [Hshort|_]; [lia|].
      reflexivity.
  - intros Hv Ho Hfirst Hlast.
    destruct (Nat.leb_spec (List.length value) 8) as [Hshort|_]; [lia|].
    destruct (Nat.leb_spec (List.length other) 8) as [Hshort|_]; [lia|].
    now rewrite Hfirst, Hlast.
Qed.

Lemma maskValue_hides_witness :
  maskValue [1; 2; 3; 4; 5; 6; 7; 8]%N = bullets.
Proof.
  refine (proj1 (proj2 (maskValue_hides [1; 2; 3; 4; 5; 6; 7; 8]%N [])) _).
  simpl. lia.
Defined.

Lemma has_delete (set : list string) (key k : string) :
  has (delete set key) k = has set k && negb (String.eqb key k).
Proof.
  unfold has, delete. induction set as [|x set IH]; simpl; [reflexivity|].
  destruct (String.eqb_spec key x) as [->|Hne]; simpl.
  - rewrite IH. destruct (String.eqb_spec k x) as [->|Hk]; simpl.
    + rewrite String.eqb_refl. simpl. now rewrite andb_false_r.
    + reflexivity.
  - rewrite IH. destruct (String.eqb_spec k x) as [->|Hk]; simpl; [|reflexivity].
    destruct (String.eqb_spec key x); [contradiction | reflexivity].
Qed.

Lemma has_add (set : list string) (key k : string) :
  has (add set key) k = has set k || String.eqb key k.
Proof.
  unfold add. destruct (has set key) eqn:Hkey.
  - destruct (String.eqb_spec key k) as [<-|_].
    + now rewrite Hkey.
    + now rewrite orb_false_r.
  - unfold has. rewrite existsb_app. simpl. rewrite orb_false_r.
    now rewrite (String.eqb_sym k key).
Qed.

Lemma has_toggle (key k : string) (prev : list string) :
  has (toggleReveal key prev) k =
  if String.eqb key k then negb (has prev k) else has prev k.
Proof.
  unfold toggleReveal. destruct (has prev key) eqn:Hkey.
  - rewrite has_delete. destruct (String.eqb_spec key k) as [<-|_]; simpl.
    + now rewrite Hkey.
    + apply andb_true_r.
  - rewrite has_add. destruct (String.eqb_spec key k) as [<-|_]; simpl.
    + now rewrite Hkey.
    + apply orb_false_r.
Qed.

(** Toggling a key flips whether that secret is revealed and leaves every
    other secret as it was; toggling twice restores what is revealed; and the
    row of the key shows the value itself exactly when it is revealed, the
    mask otherwise. *)
Theorem toggleReveal_flips (key k : string) (prev : list string)
    (value : list codeUnit) :
  has (toggleReveal key prev) key = negb (has prev key) /\
  (k <> key -> has (toggleReveal key prev) k = has prev k) /\
  has (toggleReveal key (toggleReveal key prev)) k = has prev k /\
  display (toggleReveal key prev) key value =
    (if has prev key then maskValue value else value).
Proof.
  split; [|split; [|split]].
  - rewrite has_toggle. now rewrite String.eqb_refl.
  - intros Hne. rewrite has_toggle.
    destruct (String.eqb_spec key k) as [E|_]; [now elim Hne | reflexivity].
  - rewrite !has_toggle. destruct (String.eqb key k); [apply negb_involutive | reflexivity].
  - unfold display. rewrite has_toggle, String.eqb_refl.
    now destruct (has prev key).
Qed.

Lemma toggleReveal_flips_witness :
  has (toggleReveal "JWT_SECRET" ["DATABASE_URL"]) "DATABASE_URL"
  = has ["DATABASE_URL"] "DATABASE_URL".
Proof.
  refine (proj1 (proj2 (toggleReveal_flips "JWT_SECRET" "DATABASE_URL"
                          ["DATABASE_URL"] [])) _).
  discriminate.
Defined.

(** A secret without a rotation period, or with a period of 0, has no days
    left to show and draws nothing.  Otherwise one value is drawn and the days
    left lie from 0 up to the period minus one; with a period of at most 30
    days the row is therefore always marked as needing rotation. *)
Theorem getDaysUntilRotation_range (rotationDays : option nat) (w : JS.World)
    (Hfair : JS.fair w) :
  match rotationDays with
  | None | Some 0 =>
      getDaysUntilRotation rotationDays w = (JS.Ok None, w) /\
      needsRotation None = false
  | Some days =>
      exists left,
        getDaysUntilRotation rotationDays w = (JS.Ok (Some left), JS.next w) /\
        (0 <= left < Z.of_nat days)%Z /\
        (days <= 30 -> needsRotation (Some left) = true)
  end.
Proof.
  destruct rotationDays as [[|d]|]; [now split | | now split].
  exists (JS.Math_floor (JS.rand w (JS.cursor w) * JS.of_nat (S d))).
  destruct (Hfair (JS.cursor w)) as [H0 H1].
  pose proof (floor_index_in_range _ (S d) H0 H1 (Nat.lt_0_succ d)) as Hrange.
  split; [reflexivity|]. split; [exact Hrange|].
  intros Hdays. unfold needsRotation. apply Z.ltb_lt. lia.
Qed.

Lemma getDaysUntilRotation_range_witness :
  exists left,
    getDaysUntilRotation (Some 30) (Samples.constantWorld 0.5)
      = (JS.Ok (Some left), JS.next (Samples.constantWorld 0.5)) /\
    (0 <= left < Z.of_nat 30)%Z /\
    (30 <= 30 -> needsRotation (Some left) = true).
Proof.
  apply (getDaysUntilRotation_range (Some 30) (Samples.constantWorld 0.5)).
  apply constantWorld_fair; vm_compute; [discriminate | reflexivity].
Defined.

End Secrets.
